(** * ott: Sinkhorn divergence and plotting helpers

    A shallow embedding of [ott/core/sinkhorn_divergence.py] and of the
    parts of [ott/tools/plot.py] that do not draw, with the properties
    stated about them.

    Python code that calls collaborators and may raise is rendered in a
    small monad: a computation yields the log of the collaborator calls it
    made, in order, and either the exception that aborted it or its value.
    The collaborators themselves (the Sinkhorn solver, the geometry
    classes, jax.numpy, scipy, PIL) are interfaces, given as type classes;
    every theorem holds for all their implementations. *)

From Stdlib Require Import List ZArith String Bool Lia.
From Stdlib Require Import Floats.PrimFloat.
From Stdlib Require Import Floats.SpecFloat.
From Stdlib Require Floats.FloatOps.
Import ListNotations.

Set Implicit Arguments.

(* ================================================================= *)
(** ** Exceptions and logged computations *)

(** The exceptions Python raises in the embedded code itself, and those
    coming out of a collaborator. *)
Inductive exn (error : Type) : Type :=
| IndexError
| TypeError
| Raised (e : error).

Arguments IndexError {error}.
Arguments TypeError {error}.
Arguments Raised {error} e.

Module Eff.

(** [M E X A]: the events emitted so far, then an exception or a value. *)
Definition M (E X A : Type) : Type := (list E * (X + A))%type.

Section Ops.
Context {E X : Type}.

Definition ret {A} (a : A) : M E X A := ([], inr a).

Definition raise {A} (x : X) : M E X A := ([], inl x).

Definition bind {A B} (m : M E X A) (k : A -> M E X B) : M E X B :=
  match m with
  | (l, inl x) => (l, inl x)
  | (l, inr a) => let (l', r) := k a in (l ++ l', r)
  end.

(** A collaborator call: the event is logged whether or not the call
    raises. *)
Definition call {A} (e : E) (r : X + A) : M E X A := ([e], r).

(** A pure, possibly raising, library function: nothing is logged. *)
Definition lift {A} (r : X + A) : M E X A := ([], r).

Definition log {A} (m : M E X A) : list E := fst m.
Definition outcome {A} (m : M E X A) : X + A := snd m.

(** A list comprehension [[fn x for x in xs]]: left to right, the first
    exception ends it. *)
Fixpoint mapM {A B} (fn : A -> M E X B) (xs : list A) : M E X (list B) :=
  match xs with
  | [] => ret []
  | x :: xs' =>
      bind (fn x) (fun y =>
      bind (mapM fn xs') (fun ys =>
      ret (y :: ys)))
  end.
End Ops.

(** Subscription [l[i]] with a non-negative constant index. *)
Definition index {E error A} (l : list A) (i : nat) : M E (exn error) A :=
  match nth_error l i with
  | Some v => ret v
  | None => raise IndexError
  end.

(** Turns the collaborator's own exception into a Python one. *)
Definition raised {error A} (r : error + A) : exn error + A :=
  match r with
  | inl e => inl (Raised e)
  | inr a => inr a
  end.

End Eff.

Declare Scope eff_scope.
Delimit Scope eff_scope with eff.
Notation "x <- m ;; k" := (Eff.bind m (fun x => k))
  (at level 61, m at next level, right associativity) : eff_scope.
Notation "' p <- m ;; k" := (Eff.bind m (fun x => match x with p => k end))
  (at level 61, p pattern, m at next level, right associativity) : eff_scope.
Notation "m ;;; k" := (Eff.bind m (fun _ => k))
  (at level 61, right associativity) : eff_scope.

(* ================================================================= *)
(** ** Scalars *)

(** The arithmetic of the working floating-point type, as far as the code
    uses it: the literals [0] and [0.5], [+], [-] and [*]. *)
Class ScalarOps (scalar : Type) : Type := {
  zero : scalar;
  half : scalar;
  add : scalar -> scalar -> scalar;
  sub : scalar -> scalar -> scalar;
  mul : scalar -> scalar -> scalar
}.

(** Keyword arguments [**kwargs]: a dict with string keys. *)
Definition kwargs (value : Type) : Type := list (string * value).

(* ================================================================= *)
(** ** ott.core.sinkhorn (interface) *)

Module sinkhorn.

(** Modelled from the spec: the namedtuple [sinkhorn.SinkhornOutput] is
    declared in [ott/core/sinkhorn.py]; the fields read here are [f],
    [g], [reg_ot_cost] and [errors], and the positional order is the one
    of the call [SinkhornOutput(None, None, 0, None)], whose third
    argument is the cost that "defaults to 0".  A field is [None] in the
    placeholder, hence the options. *)
Record SinkhornOutput (ndarray scalar : Type) : Type := mkSinkhornOutput {
  f : option ndarray;
  g : option ndarray;
  reg_ot_cost : scalar;
  errors : option ndarray
}.

End sinkhorn.

(* ================================================================= *)
(** ** ott/core/sinkhorn_divergence.py *)

Module SinkhornDivergence.

Import sinkhorn.

(** What the module imports: the solver [sinkhorn.sinkhorn] and the
    geometry classes with their class method [prepare_divergences]. *)
Class Collaborators : Type := {
  Geometry : Type;
  GeometryClass : Type;
  ndarray : Type;
  scalar : Type;
  value : Type;
  error : Type;
  scalar_ops :: ScalarOps scalar;
  sinkhorn :
    Geometry -> ndarray -> ndarray -> kwargs value ->
    error + SinkhornOutput ndarray scalar;
  prepare_divergences :
    GeometryClass -> list value -> bool -> kwargs value ->
    error + list (option Geometry)
}.

(** The calls to collaborators, as they appear in the log. *)
Inductive event `{Collaborators} : Type :=
| PrepareDivergences
    (geom : GeometryClass) (args : list value) (static_b : bool)
    (kw : kwargs value)
| Sinkhorn (geom : Geometry) (a b : ndarray) (kw : kwargs value).

(** [SinkhornDivergence = namedtuple('SinkhornDivergence',
    ['divergence', 'potentials', 'geoms', 'errors'])]. *)
Record SinkhornDivergence `{Collaborators} : Type := mkSinkhornDivergence {
  divergence : scalar;
  potentials : list (option ndarray * option ndarray);
  geoms : list (option Geometry);
  errors : list (option ndarray)
}.

Arguments mkSinkhornDivergence {_} divergence potentials geoms errors.

Section Code.
Context `{C : Collaborators}.

Local Open Scope eff_scope.

Definition M (A : Type) : Type := Eff.M event (exn error) A.

(** One element of the comprehension at lines 87-91:
    [SinkhornOutput(None, None, 0, None) if geom is None
     else sinkhorn.sinkhorn(geom, marginals[0], marginals[1], **kwargs)]. *)
Definition solve_term (kw : kwargs value)
    (term : option Geometry * (ndarray * ndarray))
  : M (SinkhornOutput ndarray scalar) :=
  let (geom, marginals) := term in
  match geom with
  | None => Eff.ret (mkSinkhornOutput None None zero None)
  | Some geom =>
      Eff.call (Sinkhorn geom (fst marginals) (snd marginals) kw)
        (Eff.raised (sinkhorn geom (fst marginals) (snd marginals) kw))
  end.

Definition sinkhorn_divergence
    (geometry_xy geometry_xx geometry_yy : option Geometry)
    (a b : ndarray) (kw : kwargs value) : M SinkhornDivergence :=
  let geoms := [geometry_xy; geometry_xx; geometry_yy] in
  out <- Eff.mapM (solve_term kw)
           (combine geoms [(a, b); (a, a); (b, b)]) ;;
  out0 <- Eff.index out 0 ;;
  out1 <- Eff.index out 1 ;;
  out2 <- Eff.index out 2 ;;
  let div :=
    sub (reg_ot_cost out0)
        (mul half (add (reg_ot_cost out1) (reg_ot_cost out2))) in
  Eff.ret (mkSinkhornDivergence div
             (map (fun s => (f s, g s)) out)
             geoms
             (map (fun s => sinkhorn.errors s) out)).

(** What lines 92-94 build when [out] holds the three outputs [o0], [o1]
    and [o2]; the lemmas on [sinkhorn_divergence] are stated with it. *)
Definition assemble (gs : list (option Geometry))
    (o0 o1 o2 : SinkhornOutput ndarray scalar) : SinkhornDivergence :=
  mkSinkhornDivergence
    (sub (reg_ot_cost o0) (mul half (add (reg_ot_cost o1) (reg_ot_cost o2))))
    [(f o0, g o0); (f o1, g o1); (f o2, g o2)]
    gs
    [sinkhorn.errors o0; sinkhorn.errors o1; sinkhorn.errors o2].

(** The names a keyword argument of [sinkhorn_divergence] may not take:
    they are bound positionally by the wrapper's call. *)
Definition positional_names : list string :=
  ["geometry_xy"; "geometry_xx"; "geometry_yy"; "a"; "b"]%string.

Definition clashes (kw : kwargs value) : bool :=
  existsb (fun k => existsb (String.eqb k) positional_names)
          (map fst kw).

(** The call [sinkhorn_divergence( *geometries, a, b, **div_kwargs)]:
    the unpacked tuple has to fill the three geometry parameters, and
    no keyword may name a parameter already bound. *)
Definition apply_sinkhorn_divergence
    (geometries : list (option Geometry)) (a b : ndarray)
    (div_kwargs : kwargs value) : M SinkhornDivergence :=
  match geometries with
  | [geometry_xy; geometry_xx; geometry_yy] =>
      if clashes div_kwargs then Eff.raise TypeError
      else sinkhorn_divergence geometry_xy geometry_xx geometry_yy
             a b div_kwargs
  | _ => Eff.raise TypeError
  end.

(** [(geometries + (None,) * max(0, 3 - len(geometries)))[:3]]. *)
Definition pad3 (geometries : list (option Geometry))
  : list (option Geometry) :=
  firstn 3
    (geometries ++
     repeat None (Z.to_nat (Z.max 0 (3 - Z.of_nat (List.length geometries))))).

(** [{} if sinkhorn_kwargs is None else sinkhorn_kwargs]. *)
Definition or_empty (sinkhorn_kwargs : option (kwargs value)) : kwargs value :=
  match sinkhorn_kwargs with
  | None => []
  | Some d => d
  end.

Definition sinkhorn_divergence_wrapper
    (geom : GeometryClass) (a b : ndarray) (args : list value)
    (sinkhorn_kwargs : option (kwargs value)) (static_b : bool)
    (kw : kwargs value) : M SinkhornDivergence :=
  geometries <- Eff.call (PrepareDivergences geom args static_b kw)
                  (Eff.raised (prepare_divergences geom args static_b kw)) ;;
  let geometries := pad3 geometries in
  let div_kwargs := or_empty sinkhorn_kwargs in
  apply_sinkhorn_divergence geometries a b div_kwargs.

(** What a result holds for its [i]-th term (0 is XY, 1 is XX, 2 is YY):
    the potential pair and the error trace. *)
Definition term_output (r : SinkhornDivergence) (i : nat)
  : option ((option ndarray * option ndarray) * option ndarray) :=
  match nth_error (potentials r) i, nth_error (errors r) i with
  | Some p, Some e => Some (p, e)
  | _, _ => None
  end.

End Code.

End SinkhornDivergence.

(* ================================================================= *)
(** ** ott/tools/plot.py *)

Module Plot.

(** The warning categories the module passes to [warnings.warn]. *)
Inductive warning_category : Type :=
| RuntimeWarning.

(** What the module imports: jax.numpy arrays, scipy's truncated SVD,
    [warnings.warn], and PIL's [Image], whose import may have failed when
    the module was loaded ([PIL_is_importable], lines 26-30).
    [warn message category] is what [warnings.warn] does with the warning:
    it returns, or, under a filter that turns the category into an error,
    it raises the warning as an exception. *)
Class Collaborators : Type := {
  ndarray : Type;
  Image : Type;
  error : Type;
  warn : string -> warning_category -> error + unit;
  shape : ndarray -> list Z;
  concatenate : list ndarray -> Z -> error + ndarray;
  svds : ndarray -> Z -> error + (ndarray * ndarray * ndarray);
  multiply : ndarray -> ndarray -> error + ndarray;
  slice_to : ndarray -> Z -> ndarray;
  slice_from : ndarray -> Z -> ndarray;
  PIL_is_importable : bool;
  Image_open : string -> error + Image;
  Image_save :
    Image -> string -> bool -> list Image -> Z -> Z -> error + unit
}.

(** What the module does to the outside, as it appears in the log:
    [im.save(fp, save_all=..., append_images=..., duration=..., loop=...)]
    is [ImageSave im fp save_all append_images duration loop]. *)
Inductive event `{Collaborators} : Type :=
| Warn (message : string) (category : warning_category)
| Svds (A : ndarray) (k : Z)
| ImageOpen (fp : string)
| ImageSave (im : Image) (fp : string) (save_all : bool)
    (append_images : list Image) (duration loop : Z).

Section Code.
Context `{C : Collaborators}.

Local Open Scope eff_scope.
Local Open Scope Z_scope.

Definition M (A : Type) : Type := Eff.M event (exn error) A.

(** [warnings.warn(message, category)]: the call is logged; it returns
    nothing, or raises. *)
Definition warnings_warn (message : string) (category : warning_category)
  : M unit :=
  Eff.call (Warn message category) (Eff.raised (warn message category)).

(** [Image.open(fp)]. *)
Definition open_image (fp : string) : M Image :=
  Eff.call (ImageOpen fp) (Eff.raised (Image_open fp)).

(** [im.save(fp, save_all=..., append_images=..., duration=..., loop=...)]. *)
Definition save_image (im : Image) (fp : string) (save_all : bool)
    (append_images : list Image) (duration loop : Z) : M unit :=
  Eff.call (ImageSave im fp save_all append_images duration loop)
    (Eff.raised (Image_save im fp save_all append_images duration loop)).

Definition bidimensional (x y : ndarray) : M (ndarray * ndarray) :=
  d <- Eff.index (shape x) 1 ;;
  if d <? 3 then Eff.ret (x, y)
  else
    xy <- Eff.lift (Eff.raised (concatenate [x; y] 0)) ;;
    ' (u, s, _) <- Eff.call (Svds xy 2) (Eff.raised (svds xy 2)) ;;
    proj <- Eff.lift (Eff.raised (multiply u s)) ;;
    k <- Eff.index (shape x) 0 ;;
    Eff.ret (slice_to proj k, slice_from proj k).

(** [animate(image_fns, gif_fn, duration=250, loop=0)]; both paths
    return [None]. *)
Definition animate (image_fns : list string) (gif_fn : string)
    (duration loop : Z) : M unit :=
  if negb PIL_is_importable then
    warnings_warn
      "Pillow was not imported successfully. Doing nothing instead."
      RuntimeWarning ;;;
    Eff.ret tt
  else
    images <- Eff.mapM open_image image_fns ;;
    first <- Eff.index images 0 ;;
    save_image first gif_fn true (skipn 1 images) duration 0.

End Code.

End Plot.

(* ================================================================= *)
(** ** A small implementation of the interfaces

    Used by the examples only, to run the definitions above on concrete
    inputs.  Scalars are binary64 floats.  The solver here does no
    iteration: it checks the shapes and returns zero potentials and the
    transport cost of the independent coupling of [a] and [b]; it is not
    the repository's solver, which no theorem below depends on. *)

Module Example.

Import sinkhorn.

#[export] Instance float_ops : ScalarOps float := {|
  zero := 0%float;
  half := 0.5%float;
  add := PrimFloat.add;
  sub := PrimFloat.sub;
  mul := PrimFloat.mul
|}.

Inductive pyvalue : Type :=
| VFloat (x : float)
| VMatrix (m : list (list float)).

Inductive pyerror : Type :=
| InvalidShapeError
| OtherError.

Record CostGeometry : Type := mkCostGeometry {
  cost_matrix : list (list float);
  epsilon : float
}.

Definition fsum (xs : list float) : float :=
  fold_left PrimFloat.add xs 0%float.

Definition dot (xs ys : list float) : float :=
  fsum (map (fun p => PrimFloat.mul (fst p) (snd p)) (combine xs ys)).

Definition shapes_agree (c : list (list float)) (a b : list float) : bool :=
  Nat.eqb (List.length c) (List.length a)
  && forallb (fun row => Nat.eqb (List.length row) (List.length b)) c.

Definition product_cost (geom : CostGeometry) (a b : list float)
    (kw : kwargs pyvalue)
  : pyerror + SinkhornOutput (list float) float :=
  if shapes_agree (cost_matrix geom) a b then
    inr (mkSinkhornOutput
           (Some (map (fun _ => 0%float) a))
           (Some (map (fun _ => 0%float) b))
           (dot a (map (fun row => dot row b) (cost_matrix geom)))
           (Some []))
  else inl InvalidShapeError.

Fixpoint lookup (k : string) (kw : kwargs pyvalue) : option pyvalue :=
  match kw with
  | [] => None
  | (k', v) :: kw' => if String.eqb k k' then Some v else lookup k kw'
  end.

(** Two geometry classes: the first makes one geometry per cost matrix
    passed, at most three, and two when [static_b]; the second makes one
    per cost matrix, however many. *)
Inductive geometry_class : Type :=
| Capped
| Uncapped.

Definition geometries_of (cls : geometry_class) (args : list pyvalue)
    (static_b : bool) (kw : kwargs pyvalue)
  : pyerror + list (option CostGeometry) :=
  let eps :=
    match lookup "epsilon" kw with Some (VFloat e) => e | _ => 0.125%float end in
  let size :=
    match cls with
    | Capped => if static_b then 2%nat else 3%nat
    | Uncapped => List.length args
    end in
  fold_right
    (fun v acc =>
       match v, acc with
       | VMatrix m, inr gs => inr (Some (mkCostGeometry m eps) :: gs)
       | _, _ => inl OtherError
       end)
    (inr []) (firstn size args).

#[export] Instance solver_world : SinkhornDivergence.Collaborators := {|
  SinkhornDivergence.Geometry := CostGeometry;
  SinkhornDivergence.GeometryClass := geometry_class;
  SinkhornDivergence.ndarray := list float;
  SinkhornDivergence.scalar := float;
  SinkhornDivergence.value := pyvalue;
  SinkhornDivergence.error := pyerror;
  SinkhornDivergence.sinkhorn := product_cost;
  SinkhornDivergence.prepare_divergences := geometries_of
|}.

(** Two points against two points, and the weights used below. *)
Definition cxy : list (list float) := [[1; 2]; [3; 4]]%float.
Definition cxx : list (list float) := [[0; 1]; [1; 0]]%float.
Definition cyy : list (list float) := [[0; 2]; [2; 0]]%float.
Definition gxy : CostGeometry := mkCostGeometry cxy 0.5.
Definition gxx : CostGeometry := mkCostGeometry cxx 0.5.
Definition gyy : CostGeometry := mkCostGeometry cyy 0.5.
Definition wa : list float := [0.5; 0.5]%float.
Definition wb : list float := [0.25; 0.75]%float.
Definition kw0 : kwargs pyvalue := [("threshold"%string, VFloat 0.125)].

(** Arrays for the plotting helpers: a shape and the flattened data. *)
Record array : Type := mkArray {
  array_shape : list Z;
  array_data : list float
}.

(** The files that can be opened, by name; an image is its content. *)
Definition files : list (string * string) :=
  [("a.png", "frame-a"); ("b.png", "frame-b"); ("c.png", "frame-c")]%string.

Fixpoint read (fn : string) (fs : list (string * string))
  : pyerror + string :=
  match fs with
  | [] => inl OtherError
  | (n, c) :: fs' => if String.eqb fn n then inr c else read fn fs'
  end.

(** No SVD and no array arithmetic here: those calls raise. *)
Definition plot_world (pil : bool) : Plot.Collaborators := {|
  Plot.ndarray := array;
  Plot.Image := string;
  Plot.error := pyerror;
  Plot.shape := array_shape;
  Plot.concatenate := fun _ _ => inl OtherError;
  Plot.svds := fun _ _ => inl OtherError;
  Plot.multiply := fun _ _ => inl OtherError;
  Plot.slice_to := fun x _ => x;
  Plot.slice_from := fun x _ => x;
  Plot.PIL_is_importable := pil;
  Plot.warn := fun _ _ => inr tt;
  Plot.Image_open := fun fn => read fn files;
  Plot.Image_save := fun _ _ _ _ _ _ => inr tt
|}.

Definition x2 : array := mkArray [3; 2]%Z [0; 0; 1; 0; 0; 1]%float.
Definition y2 : array := mkArray [2; 2]%Z [1; 1; 2; 2]%float.

End Example.

(* ================================================================= *)
(** ** The solver calls a list of terms asks for *)

Module SinkhornDivergenceCalls.

Import SinkhornDivergence.

(** One call per term [(geom, [m0, m1])] whose geometry is not [None], in
    the order of the terms; the theorems compare the log of a run with
    it. *)
Definition solver_calls `{Collaborators} (kw : kwargs value)
    (ts : list (option Geometry * (ndarray * ndarray))) : list event :=
  flat_map
    (fun t =>
       match fst t with
       | Some geom => [Sinkhorn geom (fst (snd t)) (snd (snd t)) kw]
       | None => []
       end)
    ts.

End SinkhornDivergenceCalls.

(* ================================================================= *)
(** ** ott/tools/plot.py: [show_gif] *)

Module Notebook.

(** [show_gif] uses an attribute the [warnings] module does not have; the
    exceptions of this function are [AttributeError] and the built-in
    ones. *)
Inductive exn_attr (error : Type) : Type :=
| AttributeError (object attribute : string)
| Builtin (x : exn error).

Arguments AttributeError {error} object attribute.
Arguments Builtin {error} x.

(** What [show_gif] imports: [IPython.display], whose import may have
    failed when the module was loaded ([IPython_is_importable], lines
    32-36), the built-in [open], [base64.b64encode] and [bytes.decode]. *)
Class Collaborators : Type := {
  HTML : Type;
  error : Type;
  IPython_is_importable : bool;
  read_binary : string -> error + list Byte.byte;
  b64encode : list Byte.byte -> list Byte.byte;
  decode_ascii : list Byte.byte -> error + string;
  display_HTML : string -> HTML
}.

(** [with open(fp, 'rb') as f: ... f.read()]. *)
Inductive event : Type :=
| ReadFile (fp : string).

Section Code.
Context `{C : Collaborators}.

Local Open Scope eff_scope.
Local Open Scope string_scope.

Definition M (A : Type) : Type := Eff.M event (exn_attr error) A.

(** A collaborator's exception, as [show_gif] sees it. *)
Definition collaborator {A} (r : error + A) : exn_attr error + A :=
  match r with
  | inl e => inl (Builtin (Raised e))
  | inr a => inr a
  end.

(** The double-quote character of the f-string at line 165. *)
Definition quote : string := String (Ascii.ascii_of_nat 34) EmptyString.

(** Line 157 reads [warnings.run]: the attribute lookup raises before
    any argument is looked at, and the [return] below it is not reached. *)
Definition show_gif (gif_fn : string) : M (option HTML) :=
  if negb IPython_is_importable then
    Eff.raise (A := unit) (AttributeError "warnings" "run") ;;;
    Eff.ret None
  else
    data <- Eff.call (ReadFile gif_fn) (collaborator (read_binary gif_fn)) ;;
    base64_encode <- Eff.lift (collaborator (decode_ascii (b64encode data))) ;;
    Eff.ret
      (Some
         (display_HTML
            ("<img src=" ++ quote ++ "data:image/gif;base64,"
               ++ base64_encode ++ quote ++ " />"))).

End Code.

End Notebook.

(* ================================================================= *)
(** ** More implementations of the interfaces, for the examples *)

Module ExampleMore.

Import Example.

(** A cost matrix of the wrong shape for the weights [wa]. *)
Definition g3 : CostGeometry :=
  mkCostGeometry [[0; 1; 2]; [1; 0; 1]; [2; 1; 0]]%float 0.5.

Definition rows_of (x : array) : Z := nth 0 (array_shape x) 0%Z.
Definition cols_of (x : array) : Z := nth 1 (array_shape x) 0%Z.

(** Row [i] of a matrix stored row by row. *)
Definition row (x : array) (i : nat) : list float :=
  firstn (Z.to_nat (cols_of x))
    (skipn (i * Z.to_nat (cols_of x)) (array_data x)).

(** Stacking two matrices with as many columns. *)
Definition stack (xs : list array) (axis : Z) : pyerror + array :=
  match xs with
  | [x; y] =>
      if (axis =? 0)%Z && (cols_of x =? cols_of y)%Z then
        inr (mkArray [(rows_of x + rows_of y)%Z; cols_of x]
               (array_data x ++ array_data y))
      else inl InvalidShapeError
  | _ => inl OtherError
  end.

(** In place of the truncated SVD, which floats here cannot compute: [u]
    keeps the first [k] columns, the singular values are all 1.  It has
    the shapes of [svds], not its values. *)
Definition first_columns (x : array) (k : Z)
  : pyerror + (array * array * array) :=
  if (k <=? cols_of x)%Z then
    inr (mkArray [rows_of x; k]
           (flat_map (fun i => firstn (Z.to_nat k) (row x i))
              (seq 0 (Z.to_nat (rows_of x)))),
         mkArray [k] (repeat 1%float (Z.to_nat k)),
         mkArray [k; cols_of x] [])
  else inl InvalidShapeError.

(** [u * s]: each row of [u] times the vector [s]. *)
Definition scale_columns (u s : array) : pyerror + array :=
  if (cols_of u =? rows_of s)%Z then
    inr (mkArray (array_shape u)
           (flat_map
              (fun i =>
                 map (fun p => PrimFloat.mul (fst p) (snd p))
                   (combine (row u i) (array_data s)))
              (seq 0 (Z.to_nat (rows_of u)))))
  else inl InvalidShapeError.

(** [x[:k]] and [x[k:]] on the rows, for [0 <= k]. *)
Definition rows_to (x : array) (k : Z) : array :=
  mkArray [Z.min k (rows_of x); cols_of x]
    (firstn (Z.to_nat k * Z.to_nat (cols_of x)) (array_data x)).

Definition rows_from (x : array) (k : Z) : array :=
  mkArray [Z.max 0 (rows_of x - k); cols_of x]
    (skipn (Z.to_nat k * Z.to_nat (cols_of x)) (array_data x)).

Definition array_world : Plot.Collaborators := {|
  Plot.ndarray := array;
  Plot.Image := string;
  Plot.error := pyerror;
  Plot.shape := array_shape;
  Plot.concatenate := stack;
  Plot.svds := first_columns;
  Plot.multiply := scale_columns;
  Plot.slice_to := rows_to;
  Plot.slice_from := rows_from;
  Plot.PIL_is_importable := true;
  Plot.warn := fun _ _ => inr tt;
  Plot.Image_open := fun fn => read fn files;
  Plot.Image_save := fun _ _ _ _ _ _ => inr tt
|}.

(** No PIL, and warnings turned into errors. *)
Definition strict_world : Plot.Collaborators := {|
  Plot.ndarray := array;
  Plot.Image := string;
  Plot.error := pyerror;
  Plot.shape := array_shape;
  Plot.concatenate := stack;
  Plot.svds := first_columns;
  Plot.multiply := scale_columns;
  Plot.slice_to := rows_to;
  Plot.slice_from := rows_from;
  Plot.PIL_is_importable := false;
  Plot.warn := fun _ _ => inl OtherError;
  Plot.Image_open := fun fn => read fn files;
  Plot.Image_save := fun _ _ _ _ _ _ => inr tt
|}.

(** Two points, and one point, in three dimensions. *)
Definition x3 : array := mkArray [2; 3]%Z [1; 2; 3; 4; 5; 6]%float.
Definition y3 : array := mkArray [1; 3]%Z [7; 8; 9]%float.

(** A vector: one axis only. *)
Definition v1 : array := mkArray [3]%Z [1; 2; 3]%float.

(** A notebook whose files are the ones of [files], read as bytes, with a
    marker in place of the base64 encoding. *)
Definition notebook_world (ipython : bool) : Notebook.Collaborators := {|
  Notebook.HTML := string;
  Notebook.error := pyerror;
  Notebook.IPython_is_importable := ipython;
  Notebook.read_binary := fun fn =>
    match read fn files with
    | inl e => inl e
    | inr c => inr (list_byte_of_string c)
    end;
  Notebook.b64encode := fun bs => list_byte_of_string "b64:" ++ bs;
  Notebook.decode_ascii := fun bs => inr (string_of_list_byte bs);
  Notebook.display_HTML := fun s => s
|}.

End ExampleMore.

(* ================================================================= *)
(** ** Binary floating-point formats as scalars *)

Module BinaryFloat.

Import sinkhorn.

(** The numbers of a binary format are [spec_float]s of the Standard
    Library, with its operations [SFadd], [SFsub], [SFmul] for a precision
    [prec] and an exponent bound [emax]: binary32, the default of jax, is
    [prec = 24], [emax = 128]; binary64 is [prec = 53], [emax = 1024]. *)

(** Zero or a finite number: neither an infinity nor NaN. *)
Definition sf_finite (x : spec_float) : bool :=
  match x with
  | S754_zero _ | S754_finite _ _ _ => true
  | S754_infinity _ | S754_nan => false
  end.

(** The literal [0.5]: mantissa [2^(prec-1)], exponent [-prec]. *)
Definition sf_half (prec : Z) : spec_float :=
  S754_finite false (Pos.iter xO xH (Z.to_pos (prec - 1))) (- prec).

(** The arithmetic of line 92 in the format. *)
Definition sf_ops (prec emax : Z) : ScalarOps spec_float := {|
  zero := S754_zero false;
  half := sf_half prec;
  add := SFadd prec emax;
  sub := SFsub prec emax;
  mul := SFmul prec emax
|}.

(** Any solver and any geometry classes, with costs in the format. *)
Definition float_world (prec emax : Z)
    {Geometry GeometryClass ndarray value error : Type}
    (solver :
       Geometry -> ndarray -> ndarray -> kwargs value ->
       error + SinkhornOutput ndarray spec_float)
    (prepare :
       GeometryClass -> list value -> bool -> kwargs value ->
       error + list (option Geometry))
  : SinkhornDivergence.Collaborators := {|
  SinkhornDivergence.Geometry := Geometry;
  SinkhornDivergence.GeometryClass := GeometryClass;
  SinkhornDivergence.ndarray := ndarray;
  SinkhornDivergence.scalar := spec_float;
  SinkhornDivergence.value := value;
  SinkhornDivergence.error := error;
  SinkhornDivergence.scalar_ops := sf_ops prec emax;
  SinkhornDivergence.sinkhorn := solver;
  SinkhornDivergence.prepare_divergences := prepare
|}.

End BinaryFloat.

(* ================================================================= *)
(** ** The example solver in a binary format *)

Module ExampleFormat.

Import sinkhorn Example BinaryFloat.

Section Solver.
Context {T : Type} `{ScalarOps T}.

Definition dot_with (xs ys : list T) : T :=
  fold_left add (map (fun p => mul (fst p) (snd p)) (combine xs ys)) zero.

(** As [Example.product_cost], in the arithmetic given: the transport
    cost of the independent coupling, after a check of the shapes. *)
Definition independent_cost (geom : list (list T)) (a b : list T)
    (kw : kwargs T) : pyerror + SinkhornOutput (list T) T :=
  if Nat.eqb (List.length geom) (List.length a)
     && forallb (fun row => Nat.eqb (List.length row) (List.length b)) geom
  then
    inr (mkSinkhornOutput
           (Some (map (fun _ => zero) a))
           (Some (map (fun _ => zero) b))
           (dot_with a (map (fun row => dot_with row b) geom))
           (Some []))
  else inl InvalidShapeError.

End Solver.

(** A geometry is its cost matrix; no geometry class prepares any. *)
Definition format_world (prec emax : Z) : SinkhornDivergence.Collaborators :=
  float_world prec emax
    (independent_cost (H := sf_ops prec emax))
    (fun (_ : unit) (_ : list spec_float) (_ : bool)
         (_ : kwargs spec_float) =>
       inr [] : pyerror + list (option (list (list spec_float)))).

Definition binary32_world : SinkhornDivergence.Collaborators :=
  format_world 24 128.

(** In binary32: 1, 3 and [2^127]. *)
Definition one32 : spec_float := S754_finite false 8388608 (-23).
Definition three32 : spec_float := S754_finite false 12582912 (-22).
Definition huge32 : spec_float := S754_finite false 8388608 104.

(** One point of weight 1, at cost 3, or [2^127], from itself: the only
    coupling is [[1]], and its regularized cost is that cost. *)
Definition self3 : list (list spec_float) := [[three32]].
Definition self_huge : list (list spec_float) := [[huge32]].

(** The same in binary64, on the machine's floats: cost [2^1023]. *)
Definition self_huge64 : CostGeometry := mkCostGeometry [[0x1p1023%float]] 0.5.

End ExampleFormat.

(* ================================================================= *)
(** * Properties *)

(** ** Logged computations *)

Module EffFacts.

Section Facts.
Context {E X : Type}.

Lemma bind_value {A B} (l : list E) (a : A) (k : A -> Eff.M E X B) :
  Eff.bind (l, inr a) k = (l ++ fst (k a), snd (k a)).
Proof. unfold Eff.bind. destruct (k a); reflexivity. Qed.

Lemma bind_exception {A B} (l : list E) (x : X) (k : A -> Eff.M E X B) :
  Eff.bind (l, inl x) k = (l, inl x).
Proof. reflexivity. Qed.

(** A comprehension that ends normally has one result per element. *)
Lemma mapM_length {A B} (fn : A -> Eff.M E X B) (xs : list A) l ys :
  Eff.mapM fn xs = (l, inr ys) -> List.length ys = List.length xs.
Proof.
  revert l ys. induction xs as [|x xs IH]; intros l ys H; simpl in H.
  - injection H as _ <-. reflexivity.
  - destruct (fn x) as [l1 [e|y]]; [discriminate|].
    rewrite bind_value in H.
    destruct (Eff.mapM fn xs) as [l2 [e|ys']] eqn:Hxs; [discriminate|].
    simpl in H. injection H as _ <-. simpl. f_equal. eauto.
Qed.
(** An event of [bind m k] is one of [m], or one of [k] run on the value
    of [m]. *)
Lemma bind_log {A B} (m : Eff.M E X A) (k : A -> Eff.M E X B) (ev : E) :
  In ev (Eff.log (Eff.bind m k)) ->
  In ev (Eff.log m) \/
  exists a, Eff.outcome m = inr a /\ In ev (Eff.log (k a)).
Proof.
  destruct m as [l [x|a]]; simpl; [now left|].
  destruct (k a) as [l' r] eqn:Hk. simpl. intros H.
  apply in_app_or in H. destruct H as [H|H]; [now left|].
  right. exists a. rewrite Hk. now split.
Qed.

(** The events of a comprehension are events of its elements. *)
Lemma mapM_log {A B} (fn : A -> Eff.M E X B) (xs : list A) (ev : E) :
  In ev (Eff.log (Eff.mapM fn xs)) ->
  exists x, In x xs /\ In ev (Eff.log (fn x)).
Proof.
  induction xs as [|x xs IH]; simpl; [intros []|].
  intros H. apply bind_log in H. destruct H as [H|(y & _ & H)].
  - exists x. auto.
  - apply bind_log in H. destruct H as [H|(ys & _ & [])].
    destruct (IH H) as (x' & Hin & Hev). exists x'. auto.
Qed.

End Facts.

End EffFacts.

(** ** The Sinkhorn divergence *)

Module SinkhornDivergenceFacts.

Import sinkhorn SinkhornDivergence.

Section Facts.
Context `{C : Collaborators}.

Implicit Types (a b : ndarray) (kw : kwargs value).
Implicit Types (o : SinkhornOutput ndarray scalar).

Lemma solve_term_present kw (geom : Geometry) a b :
  solve_term kw (Some geom, (a, b))
  = ([Sinkhorn geom a b kw], Eff.raised (sinkhorn geom a b kw)).
Proof. reflexivity. Qed.

Lemma solve_term_absent kw a b :
  solve_term kw (None, (a, b))
  = ([], inr (mkSinkhornOutput None None zero None)).
Proof. reflexivity. Qed.

(** When the three terms are solved, the divergence returns, having
    made the calls of the three terms in order. *)
Lemma sinkhorn_divergence_returns gxy gxx gyy a b kw l0 l1 l2 o0 o1 o2 :
  solve_term kw (gxy, (a, b)) = (l0, inr o0) ->
  solve_term kw (gxx, (a, a)) = (l1, inr o1) ->
  solve_term kw (gyy, (b, b)) = (l2, inr o2) ->
  sinkhorn_divergence gxy gxx gyy a b kw
  = (l0 ++ l1 ++ l2, inr (assemble [gxy; gxx; gyy] o0 o1 o2)).
Proof.
  intros H0 H1 H2. unfold sinkhorn_divergence.
  cbn [combine Eff.mapM]. rewrite H0, H1, H2.
  cbn. rewrite !app_nil_r. reflexivity.
Qed.

(** Conversely, a divergence that returns has solved its three terms. *)
Lemma sinkhorn_divergence_inv gxy gxx gyy a b kw l r :
  sinkhorn_divergence gxy gxx gyy a b kw = (l, inr r) ->
  exists l0 l1 l2 o0 o1 o2,
    solve_term kw (gxy, (a, b)) = (l0, inr o0) /\
    solve_term kw (gxx, (a, a)) = (l1, inr o1) /\
    solve_term kw (gyy, (b, b)) = (l2, inr o2) /\
    l = l0 ++ l1 ++ l2 /\
    r = assemble [gxy; gxx; gyy] o0 o1 o2.
Proof.
  intros H.
  destruct (solve_term kw (gxy, (a, b))) as [l0 [e|o0]] eqn:H0.
  { unfold sinkhorn_divergence in H. cbn [combine Eff.mapM] in H.
    rewrite H0 in H. discriminate. }
  destruct (solve_term kw (gxx, (a, a))) as [l1 [e|o1]] eqn:H1.
  { unfold sinkhorn_divergence in H. cbn [combine Eff.mapM] in H.
    rewrite H0, H1 in H. discriminate. }
  destruct (solve_term kw (gyy, (b, b))) as [l2 [e|o2]] eqn:H2.
  { unfold sinkhorn_divergence in H. cbn [combine Eff.mapM] in H.
    rewrite H0, H1, H2 in H. discriminate. }
  erewrite sinkhorn_divergence_returns in H by eassumption.
  injection H as <- <-.
  exists l0, l1, l2, o0, o1, o2. repeat split; assumption.
Qed.

(** The first exception of a solve is the divergence's. *)
Lemma sinkhorn_divergence_raises_first (gxy : Geometry) gxx gyy a b kw e :
  sinkhorn gxy a b kw = inl e ->
  sinkhorn_divergence (Some gxy) gxx gyy a b kw
  = ([Sinkhorn gxy a b kw], inl (Raised e)).
Proof.
  intros H. unfold sinkhorn_divergence. cbn [combine Eff.mapM].
  rewrite solve_term_present, H. reflexivity.
Qed.

Lemma pad3_length (gs : list (option Geometry)) :
  List.length (pad3 gs) = 3%nat.
Proof.
  unfold pad3. rewrite length_firstn, length_app, repeat_length. lia.
Qed.

Lemma pad3_three (gs : list (option Geometry)) :
  exists g0 g1 g2, pad3 gs = [g0; g1; g2].
Proof.
  pose proof (pad3_length gs) as H.
  destruct (pad3 gs) as [|g0 [|g1 [|g2 [|g3 t]]]]; try discriminate.
  now exists g0, g1, g2.
Qed.

(** The padded tuple starts with the geometries given, and is [None]
    from there on. *)
Lemma pad3_nth (gs : list (option Geometry)) (i : nat) :
  (i < 3)%nat ->
  nth_error (pad3 gs) i
  = if (i <? List.length gs)%nat then nth_error gs i else Some None.
Proof.
  intros Hi. unfold pad3. rewrite nth_error_firstn.
  destruct (Nat.ltb_spec i 3) as [_|]; [|lia].
  destruct (Nat.ltb_spec i (List.length gs)) as [Hlt|Hge].
  - now rewrite nth_error_app1.
  - rewrite nth_error_app2 by assumption.
    apply nth_error_repeat. lia.
Qed.

Lemma outcome_value {A} (m : M A) (v : A) :
  Eff.outcome m = inr v -> m = (Eff.log m, inr v).
Proof. destruct m as [l r]. simpl. now intros ->. Qed.

(** Every result of the wrapper has three slots of each kind. *)
Lemma wrapper_result_shape geom a b args skw static_b kw r :
  Eff.outcome (sinkhorn_divergence_wrapper geom a b args skw static_b kw)
  = inr r ->
  List.length (potentials r) = 3%nat /\
  List.length (geoms r) = 3%nat /\
  List.length (errors r) = 3%nat.
Proof.
  unfold sinkhorn_divergence_wrapper, Eff.call.
  destruct (prepare_divergences geom args static_b kw) as [e|gs];
    simpl Eff.raised; [discriminate|].
  rewrite EffFacts.bind_value.
  destruct (pad3_three gs) as (g0 & g1 & g2 & ->).
  unfold apply_sinkhorn_divergence.
  destruct (clashes (or_empty skw)); [discriminate|].
  unfold Eff.outcome at 1. cbn [snd]. intros H.
  apply outcome_value, sinkhorn_divergence_inv in H.
  destruct H as (l0 & l1 & l2 & o0 & o1 & o2 & _ & _ & _ & _ & ->).
  repeat split.
Qed.

(** Three geometries given, three solves returning. *)
Lemma sinkhorn_divergence_present (gxy gxx gyy : Geometry) a b kw oxy oxx oyy :
  sinkhorn gxy a b kw = inr oxy ->
  sinkhorn gxx a a kw = inr oxx ->
  sinkhorn gyy b b kw = inr oyy ->
  sinkhorn_divergence (Some gxy) (Some gxx) (Some gyy) a b kw
  = ([Sinkhorn gxy a b kw; Sinkhorn gxx a a kw; Sinkhorn gyy b b kw],
     inr (assemble [Some gxy; Some gxx; Some gyy] oxy oxx oyy)).
Proof.
  intros Hxy Hxx Hyy.
  erewrite sinkhorn_divergence_returns; cycle 1.
  - rewrite solve_term_present, Hxy. reflexivity.
  - rewrite solve_term_present, Hxx. reflexivity.
  - rewrite solve_term_present, Hyy. reflexivity.
  - reflexivity.
Qed.

(** C1. With three geometries given and the three solves returning,
    [sinkhorn_divergence] returns, and its divergence is the regularized
    OT cost of the XY solve minus one half of the sum of the costs of the
    XX and YY solves. *)
Theorem divergence_formula (gxy gxx gyy : Geometry) a b kw oxy oxx oyy :
  sinkhorn gxy a b kw = inr oxy ->
  sinkhorn gxx a a kw = inr oxx ->
  sinkhorn gyy b b kw = inr oyy ->
  exists r,
    Eff.outcome (sinkhorn_divergence (Some gxy) (Some gxx) (Some gyy) a b kw)
    = inr r /\
    divergence r
    = sub (reg_ot_cost oxy)
          (mul half (add (reg_ot_cost oxx) (reg_ot_cost oyy))).
Proof.
  intros Hxy Hxx Hyy.
  exists (assemble [Some gxy; Some gxx; Some gyy] oxy oxx oyy). split.
  - now erewrite sinkhorn_divergence_present by eassumption.
  - reflexivity.
Qed.

(** C2. A term whose geometry is [None] is not solved: its cost is 0 and
    its potentials and error trace are [None]; the divergence is still the
    first term's cost minus one half of the sum of the two others', over
    all three terms. *)
Theorem skipped_term_defaults gxy gxx gyy a b kw o0 o1 o2 :
  Eff.outcome (solve_term kw (gxy, (a, b))) = inr o0 ->
  Eff.outcome (solve_term kw (gxx, (a, a))) = inr o1 ->
  Eff.outcome (solve_term kw (gyy, (b, b))) = inr o2 ->
  exists r,
    Eff.outcome (sinkhorn_divergence gxy gxx gyy a b kw) = inr r /\
    divergence r
    = sub (reg_ot_cost o0) (mul half (add (reg_ot_cost o1) (reg_ot_cost o2))) /\
    forall i o,
      nth_error [gxy; gxx; gyy] i = Some None ->
      nth_error [o0; o1; o2] i = Some o ->
      reg_ot_cost o = zero /\
      nth_error (potentials r) i = Some (None, None) /\
      nth_error (errors r) i = Some None.
Proof.
  intros H0 H1 H2.
  apply outcome_value in H0, H1, H2.
  exists (assemble [gxy; gxx; gyy] o0 o1 o2). split; [|split].
  - now erewrite sinkhorn_divergence_returns by eassumption.
  - reflexivity.
  - intros i o Hg Ho.
    destruct i as [|[|[|i]]]; simpl in Hg, Ho;
      try (destruct i; discriminate);
      injection Hg as ->; injection Ho as <-;
      rewrite solve_term_absent in *.
    + inversion H0; subst o0. repeat split.
    + inversion H1; subst o1. repeat split.
    + inversion H2; subst o2. repeat split.
Qed.

(** C3. Whatever number of geometries [prepare_divergences] returns, a
    result of the wrapper has exactly three potential pairs, three
    geometries and three error traces; the geometries are the ones
    returned, cut after the third, and [None] where none was returned. *)
Theorem wrapper_three_slots geom a b args skw static_b kw gs :
  prepare_divergences geom args static_b kw = inr gs ->
  clashes (or_empty skw) = false ->
  (forall term,
      In term (combine (pad3 gs) [(a, b); (a, a); (b, b)]) ->
      exists o, Eff.outcome (solve_term (or_empty skw) term) = inr o) ->
  exists r,
    Eff.outcome (sinkhorn_divergence_wrapper geom a b args skw static_b kw)
    = inr r /\
    List.length (potentials r) = 3%nat /\
    List.length (geoms r) = 3%nat /\
    List.length (errors r) = 3%nat /\
    forall i, (i < 3)%nat ->
      nth_error (geoms r) i
      = if (i <? List.length gs)%nat then nth_error gs i else Some None.
Proof.
  intros Hprep Hkw Hsolve.
  pose proof (pad3_nth gs) as Hnth.
  destruct (pad3_three gs) as (g0 & g1 & g2 & Hpad).
  rewrite Hpad in Hsolve, Hnth.
  destruct (Hsolve (g0, (a, b))) as [o0 H0]; [simpl; auto|].
  destruct (Hsolve (g1, (a, a))) as [o1 H1]; [simpl; auto|].
  destruct (Hsolve (g2, (b, b))) as [o2 H2]; [simpl; auto|].
  apply outcome_value in H0, H1, H2.
  exists (assemble [g0; g1; g2] o0 o1 o2).
  split; [|repeat split; try reflexivity; assumption].
  unfold sinkhorn_divergence_wrapper, Eff.call.
  rewrite Hprep. simpl Eff.raised. rewrite EffFacts.bind_value.
  rewrite Hpad. unfold apply_sinkhorn_divergence. rewrite Hkw.
  now erewrite sinkhorn_divergence_returns by eassumption.
Qed.

(** C4. With three geometries given, the calls to the solver are, in
    order: the XY geometry with [(a, b)], the XX geometry with [(a, a)]
    and the YY geometry with [(b, b)], each with the keyword arguments
    [sinkhorn_divergence] itself received. *)
Theorem three_solves_marginals_and_config
    (gxy gxx gyy : Geometry) a b kw oxy oxx :
  sinkhorn gxy a b kw = inr oxy ->
  sinkhorn gxx a a kw = inr oxx ->
  Eff.log (sinkhorn_divergence (Some gxy) (Some gxx) (Some gyy) a b kw)
  = [Sinkhorn gxy a b kw; Sinkhorn gxx a a kw; Sinkhorn gyy b b kw].
Proof.
  intros Hxy Hxx. unfold sinkhorn_divergence. cbn [combine Eff.mapM].
  rewrite !solve_term_present, Hxy, Hxx.
  destruct (sinkhorn gyy b b kw); reflexivity.
Qed.

(** When the three geometries are one geometry and [b] is [a], the
    three solves are one solve, of cost [c] say, and the divergence is
    [c - 0.5 * (c + c)], in any arithmetic: it is 0 where doubling and
    halving [c] is exact and [c - c] is 0.  [FloatFacts] says for which
    floating-point [c] that is. *)
Theorem self_divergence_is_zero (geom : Geometry) a kw o :
  sinkhorn geom a a kw = inr o ->
  mul half (add (reg_ot_cost o) (reg_ot_cost o)) = reg_ot_cost o ->
  sub (reg_ot_cost o) (reg_ot_cost o) = zero ->
  exists r,
    Eff.outcome
      (sinkhorn_divergence (Some geom) (Some geom) (Some geom) a a kw)
    = inr r /\
    divergence r = zero.
Proof.
  intros Hs Hhalf Hsub.
  exists (assemble [Some geom; Some geom; Some geom] o o o). split.
  - now erewrite sinkhorn_divergence_present by eassumption.
  - unfold assemble. simpl. now rewrite Hhalf.
Qed.

(** C6. The three terms do not depend on one another: of two calls with
    the same solver configuration that both return, the XX outputs (the
    potential pair and the error trace) are equal when the calls agree on
    [geometry_xx] and [a], the XY outputs when they agree on
    [geometry_xy], [a] and [b], and the YY outputs when they agree on
    [geometry_yy] and [b], whatever the other arguments are. *)
Theorem terms_are_independent
    gxy gxx gyy a b gxy' gxx' gyy' a' b' kw r r' :
  Eff.outcome (sinkhorn_divergence gxy gxx gyy a b kw) = inr r ->
  Eff.outcome (sinkhorn_divergence gxy' gxx' gyy' a' b' kw) = inr r' ->
  (gxx = gxx' -> a = a' ->
   term_output r 1 = term_output r' 1 /\ term_output r 1 <> None) /\
  (gxy = gxy' -> a = a' -> b = b' ->
   term_output r 0 = term_output r' 0 /\ term_output r 0 <> None) /\
  (gyy = gyy' -> b = b' ->
   term_output r 2 = term_output r' 2 /\ term_output r 2 <> None).
Proof.
  intros H H'.
  apply outcome_value, sinkhorn_divergence_inv in H, H'.
  destruct H as (l0 & l1 & l2 & o0 & o1 & o2 & H0 & H1 & H2 & _ & ->).
  destruct H' as (l0' & l1' & l2' & o0' & o1' & o2' & H0' & H1' & H2' & _ & ->).
  repeat split; try discriminate; subst; unfold term_output; simpl.
  - rewrite H1 in H1'. now inversion H1'.
  - rewrite H0 in H0'. now inversion H0'.
  - rewrite H2 in H2'. now inversion H2'.
Qed.

End Facts.

(** *** The theorems at work on the example solver *)

Import Example.

(** Three cost matrices: the divergence is [2.75 - 0.5 * (0.5 + 0.75)]. *)
Lemma divergence_formula_witness :
  exists r,
    Eff.outcome
      (sinkhorn_divergence (Some gxy) (Some gxx) (Some gyy) wa wb kw0)
    = inr r /\
    divergence r = 2.125%float.
Proof.
  destruct (@divergence_formula solver_world gxy gxx gyy wa wb kw0 _ _ _
              eq_refl eq_refl eq_refl) as (r & Hr & Hd).
  exists r. split; [exact Hr|]. rewrite Hd. reflexivity.
Defined.

(** No YY geometry: the divergence is [2.75 - 0.5 * (0.5 + 0)], and the
    third slots are placeholders. *)
Lemma skipped_term_defaults_witness :
  exists r,
    Eff.outcome (sinkhorn_divergence (Some gxy) (Some gxx) None wa wb kw0)
    = inr r /\
    divergence r = 2.5%float /\
    nth_error (potentials r) 2 = Some (None, None) /\
    nth_error (errors r) 2 = Some None.
Proof.
  destruct (@skipped_term_defaults solver_world
              (Some gxy) (Some gxx) None wa wb kw0 _ _ _
              eq_refl eq_refl eq_refl) as (r & Hr & Hd & Hnone).
  exists r. split; [exact Hr|]. split; [rewrite Hd; reflexivity|].
  exact (proj2 (Hnone 2%nat _ eq_refl eq_refl)).
Defined.

(** Two cost matrices passed to the wrapper. *)
Lemma wrapper_three_slots_witness :
  exists r,
    Eff.outcome
      (sinkhorn_divergence_wrapper Capped wa wb [VMatrix cxy; VMatrix cxx]
         (Some kw0) false [])
    = inr r /\
    List.length (potentials r) = 3%nat /\
    List.length (geoms r) = 3%nat /\
    List.length (errors r) = 3%nat /\
    nth_error (geoms r) 2 = Some None.
Proof.
  destruct (@wrapper_three_slots solver_world Capped wa wb
              [VMatrix cxy; VMatrix cxx] (Some kw0) false [] _
              eq_refl eq_refl) as (r & Hr & Hp & Hg & He & Hnth).
  - intros term [<-|[<-|[<-|[]]]]; eexists; reflexivity.
  - exists r. repeat split; try assumption.
    exact (Hnth 2%nat (Nat.lt_succ_diag_r 2)).
Defined.

(** The three calls of a full divergence. *)
Lemma three_solves_marginals_and_config_witness :
  Eff.log (sinkhorn_divergence (Some gxy) (Some gxx) (Some gyy) wa wb kw0)
  = [Sinkhorn gxy wa wb kw0; Sinkhorn gxx wa wa kw0; Sinkhorn gyy wb wb kw0].
Proof.
  exact (@three_solves_marginals_and_config solver_world
           gxy gxx gyy wa wb kw0 _ _ eq_refl eq_refl).
Defined.

(** The XX geometry against itself, on binary64 floats: the cost of each
    solve is 0.5, and [0.5 - 0.5 * (0.5 + 0.5)] is 0. *)
Lemma self_divergence_is_zero_witness :
  exists r,
    Eff.outcome
      (sinkhorn_divergence (Some gxx) (Some gxx) (Some gxx) wa wa kw0)
    = inr r /\
    divergence r = 0%float.
Proof.
  exact (@self_divergence_is_zero solver_world gxx wa kw0 _
           eq_refl eq_refl eq_refl).
Defined.

(** Two calls that share [geometry_xx] and [a] only. *)
Lemma terms_are_independent_witness :
  exists r r',
    Eff.outcome
      (sinkhorn_divergence (Some gxy) (Some gxx) (Some gyy) wa wb kw0)
    = inr r /\
    Eff.outcome (sinkhorn_divergence (Some gxx) (Some gxx) None wa wa kw0)
    = inr r' /\
    term_output r 1 = term_output r' 1 /\
    term_output r 1 <> None.
Proof.
  eexists. eexists. split; [reflexivity|]. split; [reflexivity|].
  exact (proj1 (@terms_are_independent solver_world
                  (Some gxy) (Some gxx) (Some gyy) wa wb
                  (Some gxx) (Some gxx) None wa wa kw0 _ _
                  eq_refl eq_refl)
           eq_refl eq_refl).
Defined.

(** A class that returns four geometries: the fourth is dropped. *)
Example wrapper_four_geometries :
  exists r,
    Eff.outcome
      (sinkhorn_divergence_wrapper Uncapped wa wb
         [VMatrix cxy; VMatrix cxx; VMatrix cyy; VMatrix cxy] None false [])
    = inr r /\
    geoms r
    = [Some (mkCostGeometry cxy 0.125); Some (mkCostGeometry cxx 0.125);
       Some (mkCostGeometry cyy 0.125)].
Proof. eexists. split; reflexivity. Qed.

(** A class that returns no geometry: three placeholders, divergence
    [0 - 0.5 * (0 + 0)], no solve. *)
Example wrapper_no_geometry :
  sinkhorn_divergence_wrapper Uncapped wa wb [] None false []
  = ([PrepareDivergences Uncapped [] false []],
     inr (mkSinkhornDivergence 0%float
            [(None, None); (None, None); (None, None)]
            [None; None; None] [None; None; None])).
Proof. reflexivity. Qed.

(** A solve that raises ends the divergence: the later solves are not
    run. *)
Example shape_mismatch_propagates :
  sinkhorn_divergence (Some gxy) (Some gxx) (Some gyy) wa [1%float] kw0
  = ([Sinkhorn gxy wa [1%float] kw0], inl (Raised InvalidShapeError)).
Proof. reflexivity. Qed.

(** A keyword of [sinkhorn_kwargs] that names a positional parameter. *)
Example keyword_clash_is_type_error :
  Eff.outcome
    (sinkhorn_divergence_wrapper Capped wa wb [VMatrix cxy; VMatrix cxx]
       (Some [("a"%string, VFloat 1)]) false [])
  = inl TypeError.
Proof. reflexivity. Qed.

End SinkhornDivergenceFacts.

(** ** The plotting helpers *)

Module PlotFacts.

Import Plot.

Section Facts.
Context `{C : Collaborators}.

Local Open Scope Z_scope.

(** C8. [animate] does not read its [loop] argument: two calls that differ
    in it only do the same, and a file that is saved is saved with
    [loop=0]. *)
Theorem animate_ignores_loop image_fns gif_fn duration loop1 loop2 :
  animate image_fns gif_fn duration loop1
  = animate image_fns gif_fn duration loop2 /\
  forall im fp save_all append_images d l,
    In (ImageSave im fp save_all append_images d l)
       (Eff.log (animate image_fns gif_fn duration loop1)) ->
    l = 0.
Proof.
  split; [reflexivity|].
  intros im fp save_all append_images d l. unfold animate.
  destruct PIL_is_importable; simpl negb; cbv iota.
  - intros H. apply EffFacts.bind_log in H.
    destruct H as [H|(images & _ & H)].
    + apply EffFacts.mapM_log in H. destruct H as (fn & _ & [H|[]]).
      discriminate.
    + apply EffFacts.bind_log in H.
      destruct H as [H|(first & _ & [H|[]])].
      * unfold Eff.index in H. destruct (nth_error images 0); destruct H.
      * now inversion H.
  - intros H. apply EffFacts.bind_log in H.
    destruct H as [[H|[]]|([] & _ & [])]. discriminate.
Qed.

(** C9. When [x] has fewer than three columns, [bidimensional] returns
    [(x, y)] as they are, without calling the SVD. *)
Theorem bidimensional_low_dimension (x y : ndarray) (d : Z) :
  nth_error (shape x) 1 = Some d ->
  d < 3 ->
  bidimensional x y = ([], inr (x, y)).
Proof.
  intros Hd Hlt. unfold bidimensional, Eff.index. rewrite Hd.
  unfold Eff.ret at 1. rewrite EffFacts.bind_value.
  destruct (Z.ltb_spec d 3) as [_|]; [reflexivity|lia].
Qed.

(** Without PIL, [animate] is its call to [warnings.warn]. *)
Lemma animate_warns image_fns gif_fn duration loop :
  PIL_is_importable = false ->
  animate image_fns gif_fn duration loop
  = ([Warn "Pillow was not imported successfully. Doing nothing instead."
        RuntimeWarning],
     Eff.raised
       (warn "Pillow was not imported successfully. Doing nothing instead."
          RuntimeWarning)).
Proof.
  intros H. unfold animate, warnings_warn, Eff.call. rewrite H. cbn [negb].
  destruct (warn _ RuntimeWarning) as [e|[]]; reflexivity.
Qed.

(** C10. When PIL could not be imported, [animate] issues one
    [RuntimeWarning] and, [warnings.warn] returning, returns [None]; it
    opens no image and saves no file. *)
Theorem animate_without_pil image_fns gif_fn duration loop :
  PIL_is_importable = false ->
  warn "Pillow was not imported successfully. Doing nothing instead."
    RuntimeWarning
  = inr tt ->
  animate image_fns gif_fn duration loop
  = ([Warn "Pillow was not imported successfully. Doing nothing instead."
        RuntimeWarning],
     inr tt).
Proof.
  intros Hpil Hwarn. rewrite (animate_warns _ _ _ _ Hpil), Hwarn.
  reflexivity.
Qed.

(** Under a filter that makes the warning an error, the exception of
    [warnings.warn] is the exception of [animate]; still nothing is opened
    or saved. *)
Lemma animate_without_pil_strict image_fns gif_fn duration loop e :
  PIL_is_importable = false ->
  warn "Pillow was not imported successfully. Doing nothing instead."
    RuntimeWarning
  = inl e ->
  animate image_fns gif_fn duration loop
  = ([Warn "Pillow was not imported successfully. Doing nothing instead."
        RuntimeWarning],
     inl (Raised e)).
Proof.
  intros Hpil Hwarn. rewrite (animate_warns _ _ _ _ Hpil), Hwarn.
  reflexivity.
Qed.

End Facts.

(** *** The theorems at work on the example files *)

Import Example.

(** Three frames, [loop=7] asked for: the file is saved with [loop=0]. *)
Lemma animate_ignores_loop_witness :
  @animate (plot_world true) ["a.png"; "b.png"; "c.png"]%string "out.gif" 250 7
  = @animate (plot_world true) ["a.png"; "b.png"; "c.png"]%string "out.gif" 250 0
  /\ Eff.log
       (@animate (plot_world true) ["a.png"; "b.png"; "c.png"]%string
          "out.gif" 250 7)
     = [ImageOpen "a.png"; ImageOpen "b.png"; ImageOpen "c.png";
        ImageSave (H := plot_world true)
          "frame-a"%string "out.gif" true ["frame-b"; "frame-c"]%string 250 0].
Proof.
  split; [|reflexivity].
  exact (proj1 (@animate_ignores_loop (plot_world true)
                  ["a.png"; "b.png"; "c.png"]%string "out.gif"%string
                  250%Z 7%Z 0%Z)).
Defined.

(** Three points in the plane against two. *)
Lemma bidimensional_low_dimension_witness :
  @bidimensional (plot_world true) x2 y2 = ([], inr (x2, y2)).
Proof.
  apply (@bidimensional_low_dimension (plot_world true) x2 y2 2%Z).
  - reflexivity.
  - reflexivity.
Defined.

(** No PIL: one warning, nothing else. *)
Lemma animate_without_pil_witness :
  @animate (plot_world false) ["a.png"; "b.png"]%string "out.gif" 250 0
  = ([Warn (H := plot_world false)
        "Pillow was not imported successfully. Doing nothing instead."
        RuntimeWarning],
     inr tt).
Proof.
  exact (@animate_without_pil (plot_world false)
           ["a.png"; "b.png"]%string "out.gif"%string 250%Z 0%Z
           eq_refl eq_refl).
Defined.

(** No frame at all: [images[0]] raises, nothing is saved. *)
Example animate_no_frame :
  @animate (plot_world true) [] "out.gif" 250 0 = ([], inl IndexError).
Proof. reflexivity. Qed.

(** A frame that cannot be opened: the later ones are not tried. *)
Example animate_missing_frame :
  @animate (plot_world true) ["a.png"; "z.png"; "b.png"]%string "out.gif" 250 0
  = ([ImageOpen "a.png"; ImageOpen "z.png"], inl (Raised OtherError)).
Proof. reflexivity. Qed.

End PlotFacts.

(** ** More on the Sinkhorn divergence: exceptions, calls, the wrapper *)

Module SinkhornDivergenceMore.

Import sinkhorn SinkhornDivergence SinkhornDivergenceCalls.
Import SinkhornDivergenceFacts.

Section Facts.
Context `{C : Collaborators}.

Implicit Types (a b : ndarray) (kw : kwargs value).
Implicit Types (o : SinkhornOutput ndarray scalar).

Lemma solve_term_raises kw (geom : option Geometry) a b l x :
  solve_term kw (geom, (a, b)) = (l, inl x) ->
  exists g e,
    geom = Some g /\ sinkhorn g a b kw = inl e /\
    x = Raised e /\ l = [Sinkhorn g a b kw].
Proof.
  destruct geom as [g|]; [|discriminate].
  rewrite solve_term_present.
  destruct (sinkhorn g a b kw) as [e|o] eqn:Hs; simpl; [|discriminate].
  intros H. inversion H. now exists g, e.
Qed.

Lemma solve_term_log kw (geom : option Geometry) a b :
  Eff.log (solve_term kw (geom, (a, b)))
  = match geom with Some g => [Sinkhorn g a b kw] | None => [] end.
Proof. now destruct geom. Qed.

(** How a call ends: at the first term whose solve raises, or with the
    three outputs. *)
Lemma sinkhorn_divergence_cases gxy gxx gyy a b kw :
  (exists l0 x,
      solve_term kw (gxy, (a, b)) = (l0, inl x) /\
      sinkhorn_divergence gxy gxx gyy a b kw = (l0, inl x)) \/
  (exists l0 o0 l1 x,
      solve_term kw (gxy, (a, b)) = (l0, inr o0) /\
      solve_term kw (gxx, (a, a)) = (l1, inl x) /\
      sinkhorn_divergence gxy gxx gyy a b kw = (l0 ++ l1, inl x)) \/
  (exists l0 o0 l1 o1 l2 x,
      solve_term kw (gxy, (a, b)) = (l0, inr o0) /\
      solve_term kw (gxx, (a, a)) = (l1, inr o1) /\
      solve_term kw (gyy, (b, b)) = (l2, inl x) /\
      sinkhorn_divergence gxy gxx gyy a b kw = (l0 ++ l1 ++ l2, inl x)) \/
  (exists l0 o0 l1 o1 l2 o2,
      solve_term kw (gxy, (a, b)) = (l0, inr o0) /\
      solve_term kw (gxx, (a, a)) = (l1, inr o1) /\
      solve_term kw (gyy, (b, b)) = (l2, inr o2) /\
      sinkhorn_divergence gxy gxx gyy a b kw
      = (l0 ++ l1 ++ l2, inr (assemble [gxy; gxx; gyy] o0 o1 o2))).
Proof.
  destruct (solve_term kw (gxy, (a, b))) as [l0 [x|o0]] eqn:H0.
  { left. exists l0, x. split; [reflexivity|].
    unfold sinkhorn_divergence. cbn [combine Eff.mapM].
    now rewrite H0. }
  destruct (solve_term kw (gxx, (a, a))) as [l1 [x|o1]] eqn:H1.
  { right. left. exists l0, o0, l1, x. repeat split.
    unfold sinkhorn_divergence. cbn [combine Eff.mapM].
    now rewrite H0, H1. }
  destruct (solve_term kw (gyy, (b, b))) as [l2 [x|o2]] eqn:H2.
  { right. right. left. exists l0, o0, l1, o1, l2, x. repeat split.
    unfold sinkhorn_divergence. cbn [combine Eff.mapM].
    rewrite H0, H1, H2. cbn. now rewrite app_assoc. }
  right. right. right. exists l0, o0, l1, o1, l2, o2. repeat split.
  now apply sinkhorn_divergence_returns.
Qed.

(** An exception of a divergence is the exception of one of its solves. *)
Lemma divergence_raises_only_solver_errors_aux gxy gxx gyy a b kw x :
  Eff.outcome (sinkhorn_divergence gxy gxx gyy a b kw) = inl x ->
  exists g m0 m1 e,
    In (Some g, (m0, m1))
       (combine [gxy; gxx; gyy] [(a, b); (a, a); (b, b)]) /\
    sinkhorn g m0 m1 kw = inl e /\
    x = Raised e.
Proof.
  intros H.
  destruct (sinkhorn_divergence_cases gxy gxx gyy a b kw)
    as [(l0 & y & H0 & E)
       |[(l0 & o0 & l1 & y & _ & H1 & E)
        |[(l0 & o0 & l1 & o1 & l2 & y & _ & _ & H2 & E)
         |(l0 & o0 & l1 & o1 & l2 & o2 & _ & _ & _ & E)]]];
    rewrite E in H; simpl in H; try discriminate;
    injection H as ->.
  - apply solve_term_raises in H0. destruct H0 as (g & e & -> & Hs & -> & _).
    exists g, a, b, e. simpl. auto.
  - apply solve_term_raises in H1. destruct H1 as (g & e & -> & Hs & -> & _).
    exists g, a, a, e. simpl. auto.
  - apply solve_term_raises in H2. destruct H2 as (g & e & -> & Hs & -> & _).
    exists g, b, b, e. simpl. auto 6.
Qed.

(** X1. [sinkhorn_divergence] raises nothing of its own: an exception it
    ends with is the exception of a solve of one of its terms. *)
Theorem divergence_raises_only_solver_errors gxy gxx gyy a b kw x :
  Eff.outcome (sinkhorn_divergence gxy gxx gyy a b kw) = inl x ->
  exists g m0 m1 e,
    In (Some g, (m0, m1))
       (combine [gxy; gxx; gyy] [(a, b); (a, a); (b, b)]) /\
    sinkhorn g m0 m1 kw = inl e /\
    x = Raised e.
Proof.
  intros H.
  destruct (sinkhorn_divergence gxy gxx gyy a b kw) as [l r] eqn:E.
  simpl in H. subst r.
  eapply divergence_raises_only_solver_errors_aux. rewrite E. reflexivity.
Qed.

(** X2. The first solve that raises ends the call with its exception: the
    solves after it are not run.  With the three geometries given: *)
Theorem first_raising_solve_stops (gxy gxx gyy : Geometry) a b kw e :
  (sinkhorn gxy a b kw = inl e ->
   sinkhorn_divergence (Some gxy) (Some gxx) (Some gyy) a b kw
   = ([Sinkhorn gxy a b kw], inl (Raised e))) /\
  (forall oxy,
      sinkhorn gxy a b kw = inr oxy ->
      sinkhorn gxx a a kw = inl e ->
      sinkhorn_divergence (Some gxy) (Some gxx) (Some gyy) a b kw
      = ([Sinkhorn gxy a b kw; Sinkhorn gxx a a kw], inl (Raised e))) /\
  (forall oxy oxx,
      sinkhorn gxy a b kw = inr oxy ->
      sinkhorn gxx a a kw = inr oxx ->
      sinkhorn gyy b b kw = inl e ->
      sinkhorn_divergence (Some gxy) (Some gxx) (Some gyy) a b kw
      = ([Sinkhorn gxy a b kw; Sinkhorn gxx a a kw; Sinkhorn gyy b b kw],
         inl (Raised e))).
Proof.
  repeat split.
  - intros H. now apply sinkhorn_divergence_raises_first.
  - intros oxy Hxy Hxx. unfold sinkhorn_divergence. cbn [combine Eff.mapM].
    rewrite !solve_term_present, Hxy, Hxx. reflexivity.
  - intros oxy oxx Hxy Hxx Hyy. unfold sinkhorn_divergence.
    cbn [combine Eff.mapM].
    rewrite !solve_term_present, Hxy, Hxx, Hyy. reflexivity.
Qed.

(** X3. A call that returns has called the solver once for each geometry
    that is not [None], in the order XY, XX, YY, and not at all for a
    geometry that is [None]. *)
Theorem solver_calls_match_geometries gxy gxx gyy a b kw r :
  Eff.outcome (sinkhorn_divergence gxy gxx gyy a b kw) = inr r ->
  Eff.log (sinkhorn_divergence gxy gxx gyy a b kw)
  = solver_calls kw (combine [gxy; gxx; gyy] [(a, b); (a, a); (b, b)]).
Proof.
  intros H. apply outcome_value in H.
  destruct (sinkhorn_divergence_inv _ _ _ _ _ _ H)
    as (l0 & l1 & l2 & o0 & o1 & o2 & H0 & H1 & H2 & Hl & _).
  rewrite H in Hl at 1. cbn [Eff.log fst] in Hl |- *. rewrite H. cbn [fst].
  rewrite Hl.
  apply (f_equal Eff.log) in H0, H1, H2.
  rewrite solve_term_log in H0, H1, H2. cbn [Eff.log fst] in H0, H1, H2.
  subst l0 l1 l2. simpl. now rewrite app_nil_r.
Qed.

(** X18. A call that returns hands the solves' outputs on unchanged: for
    each geometry that is not [None], the solve of its term returned some
    output [o], and the result holds, at the term's position, that
    geometry, the pair [[o.f, o.g]] and [o.errors]. *)
Theorem term_outputs_are_the_solves gxy gxx gyy a b kw r :
  Eff.outcome (sinkhorn_divergence gxy gxx gyy a b kw) = inr r ->
  forall i geom m0 m1,
    nth_error (combine [gxy; gxx; gyy] [(a, b); (a, a); (b, b)]) i
    = Some (Some geom, (m0, m1)) ->
    exists o,
      sinkhorn geom m0 m1 kw = inr o /\
      term_output r i = Some ((f o, g o), sinkhorn.errors o) /\
      nth_error (geoms r) i = Some (Some geom).
Proof.
  intros H i geom m0 m1 Hi. apply outcome_value in H.
  destruct (sinkhorn_divergence_inv _ _ _ _ _ _ H)
    as (l0 & l1 & l2 & o0 & o1 & o2 & H0 & H1 & H2 & _ & ->).
  assert (Hsolve : forall l o x y,
             solve_term kw (Some geom, (x, y)) = (l, inr o) ->
             sinkhorn geom x y kw = inr o).
  { intros l o x y Hs. rewrite solve_term_present in Hs.
    destruct (sinkhorn geom x y kw); simpl in Hs; now inversion Hs. }
  destruct i as [|[|[|i]]]; simpl in Hi;
    try (destruct i; discriminate);
    inversion Hi; subst.
  - exists o0. repeat split. eapply Hsolve, H0.
  - exists o1. repeat split. eapply Hsolve, H1.
  - exists o2. repeat split. eapply Hsolve, H2.
Qed.

(** The padded tuple, element by element. *)
Lemma pad3_nth_default (gs : list (option Geometry)) :
  pad3 gs = [nth 0 gs None; nth 1 gs None; nth 2 gs None].
Proof.
  assert (Hn : forall i, (i < 3)%nat ->
                nth_error (pad3 gs) i = Some (nth i gs None)).
  { intros i Hi. rewrite (pad3_nth gs Hi).
    destruct (Nat.ltb_spec i (List.length gs)) as [Hlt|Hge].
    - now apply nth_error_nth'.
    - now rewrite nth_overflow. }
  destruct (pad3_three gs) as (g0 & g1 & g2 & Hpad). rewrite Hpad in *.
  pose proof (Hn 0%nat) as H0. pose proof (Hn 1%nat) as H1.
  pose proof (Hn 2%nat) as H2. simpl in H0, H1, H2.
  specialize (H0 ltac:(lia)). specialize (H1 ltac:(lia)).
  specialize (H2 ltac:(lia)). congruence.
Qed.

(** The wrapper after [prepare_divergences] has returned. *)
Lemma wrapper_after_prepare geom a b args skw static_b kw gs :
  prepare_divergences geom args static_b kw = inr gs ->
  sinkhorn_divergence_wrapper geom a b args skw static_b kw
  = (PrepareDivergences geom args static_b kw
       :: Eff.log (apply_sinkhorn_divergence (pad3 gs) a b (or_empty skw)),
     Eff.outcome (apply_sinkhorn_divergence (pad3 gs) a b (or_empty skw))).
Proof.
  intros Hprep. unfold sinkhorn_divergence_wrapper, Eff.call.
  rewrite Hprep. simpl Eff.raised. now rewrite EffFacts.bind_value.
Qed.

(** A key of [sinkhorn_kwargs] that names a positional parameter. *)
Lemma clashes_in (d : kwargs value) (k : string) (v : value) :
  In (k, v) d -> In k positional_names -> clashes d = true.
Proof.
  intros Hd Hk. unfold clashes. apply existsb_exists.
  exists k. split; [now apply (in_map fst) in Hd|].
  apply existsb_exists. exists k. split; [assumption|apply String.eqb_refl].
Qed.

(** The events of a divergence are solver calls on its terms, with its
    keyword arguments, whether it returns or raises. *)
Lemma divergence_events gxy gxx gyy a b kw (ev : event) :
  In ev (Eff.log (sinkhorn_divergence gxy gxx gyy a b kw)) ->
  exists g x y,
    ev = Sinkhorn g x y kw /\
    In (Some g, (x, y)) (combine [gxy; gxx; gyy] [(a, b); (a, a); (b, b)]).
Proof.
  unfold sinkhorn_divergence. intros H.
  apply EffFacts.bind_log in H. destruct H as [H|(out & _ & H)].
  - apply EffFacts.mapM_log in H. destruct H as ([geom [x y]] & Hin & H).
    rewrite solve_term_log in H. destruct geom as [g|]; [|destruct H].
    destruct H as [<-|[]]. now exists g, x, y.
  - exfalso.
    repeat (apply EffFacts.bind_log in H;
            destruct H as [H|(? & _ & H)];
            [unfold Eff.index in H;
             match type of H with
             | context [nth_error ?l ?i] => destruct (nth_error l i)
             end; destruct H|]).
    destruct H.
Qed.

(** X4. Once [prepare_divergences] has returned a tuple, and no keyword
    of [sinkhorn_kwargs] names a positional parameter, the wrapper is the
    call of [sinkhorn_divergence] on the first three elements of the
    tuple, [None] standing for a missing one, with [sinkhorn_kwargs] (or
    no keyword at all) as solver configuration: same events after the
    call to [prepare_divergences], same result or exception. *)
Theorem wrapper_is_divergence_on_first_three
    geom a b args skw static_b kw gs :
  prepare_divergences geom args static_b kw = inr gs ->
  clashes (or_empty skw) = false ->
  sinkhorn_divergence_wrapper geom a b args skw static_b kw
  = (PrepareDivergences geom args static_b kw
       :: Eff.log (sinkhorn_divergence (nth 0 gs None) (nth 1 gs None)
                     (nth 2 gs None) a b (or_empty skw)),
     Eff.outcome (sinkhorn_divergence (nth 0 gs None) (nth 1 gs None)
                    (nth 2 gs None) a b (or_empty skw))).
Proof.
  intros Hprep Hkw. erewrite wrapper_after_prepare by eassumption.
  rewrite pad3_nth_default. unfold apply_sinkhorn_divergence.
  now rewrite Hkw.
Qed.

(** X5. A keyword of [sinkhorn_kwargs] named like one of the parameters
    the wrapper passes positionally ([geometry_xy], [geometry_xx],
    [geometry_yy], [a], [b]) makes the call of [sinkhorn_divergence] a
    [TypeError]: the geometries have been prepared by then, and no solve is
    run. *)
Theorem wrapper_keyword_clash geom a b args d static_b kw gs k v :
  prepare_divergences geom args static_b kw = inr gs ->
  In (k, v) d ->
  In k positional_names ->
  sinkhorn_divergence_wrapper geom a b args (Some d) static_b kw
  = ([PrepareDivergences geom args static_b kw], inl TypeError).
Proof.
  intros Hprep Hd Hk. erewrite wrapper_after_prepare by eassumption.
  destruct (pad3_three gs) as (g0 & g1 & g2 & ->).
  unfold apply_sinkhorn_divergence. simpl or_empty.
  now erewrite clashes_in by eassumption.
Qed.

(** X6. The arguments meant for the geometry ([args], [static_b] and the
    wrapper's own keywords) go to [prepare_divergences] only: every solver
    call of the wrapper, in a run that returns or raises, has
    [sinkhorn_kwargs] (or no keyword) as configuration and [(a, b)],
    [(a, a)] or [(b, b)] as weights; the only other call is the one to
    [prepare_divergences]. *)
Theorem wrapper_calls geom a b args skw static_b kw (ev : event) :
  In ev (Eff.log (sinkhorn_divergence_wrapper geom a b args skw static_b kw)) ->
  ev = PrepareDivergences geom args static_b kw \/
  exists g x y,
    ev = Sinkhorn g x y (or_empty skw) /\
    In (x, y) [(a, b); (a, a); (b, b)].
Proof.
  unfold sinkhorn_divergence_wrapper. intros H.
  apply EffFacts.bind_log in H. destruct H as [[<-|[]]|(gs & _ & H)];
    [now left|right].
  destruct (pad3_three gs) as (g0 & g1 & g2 & Hpad). rewrite Hpad in H.
  unfold apply_sinkhorn_divergence in H.
  destruct (clashes (or_empty skw)); [destruct H|].
  apply divergence_events in H. destruct H as (g & x & y & -> & Hin).
  exists g, x, y. split; [reflexivity|]. now apply in_combine_r in Hin.
Qed.

(** X7. Where the exceptions of the wrapper come from.  The wrapper has
    one exception of its own making: the [TypeError] of binding the call
    at line 59, which needs [prepare_divergences] to have returned and a
    key of [sinkhorn_kwargs] to name a positional parameter.  Any other
    exception is one that [prepare_divergences] or a solve raised, of
    whatever class, passed on as it is.  The padding of the tuple, the
    unpacking of the three geometries and the subscripts [out[0]],
    [out[1]], [out[2]] never raise. *)
Theorem wrapper_exception_origin geom a b args skw static_b kw x :
  Eff.outcome (sinkhorn_divergence_wrapper geom a b args skw static_b kw)
  = inl x ->
  (x = TypeError /\
   clashes (or_empty skw) = true /\
   exists gs, prepare_divergences geom args static_b kw = inr gs) \/
  (exists e,
      x = Raised e /\
      (prepare_divergences geom args static_b kw = inl e \/
       exists g m0 m1,
         In (m0, m1) [(a, b); (a, a); (b, b)] /\
         sinkhorn g m0 m1 (or_empty skw) = inl e)).
Proof.
  destruct (prepare_divergences geom args static_b kw) as [e|gs] eqn:Hprep.
  - unfold sinkhorn_divergence_wrapper, Eff.call. rewrite Hprep.
    simpl. intros H. injection H as <-. right. exists e. auto.
  - erewrite wrapper_after_prepare by eassumption.
    unfold Eff.outcome at 1. cbn [snd].
    destruct (pad3_three gs) as (g0 & g1 & g2 & ->).
    unfold apply_sinkhorn_divergence.
    destruct (clashes (or_empty skw)).
    + simpl. intros H. injection H as <-. left. repeat split. now exists gs.
    + intros H. apply divergence_raises_only_solver_errors_aux in H.
      destruct H as (g & m0 & m1 & e & Hin & Hs & ->).
      right. exists e. split; [reflexivity|]. right.
      exists g, m0, m1. split; [|assumption].
      now apply in_combine_r in Hin.
Qed.

(** X8. When [prepare_divergences] returns the empty tuple, the wrapper
    runs no solve and returns three placeholders, with the divergence
    [0 - 0.5 * (0 + 0)]. *)
Theorem wrapper_no_geometries geom a b args skw static_b kw :
  prepare_divergences geom args static_b kw = inr [] ->
  clashes (or_empty skw) = false ->
  sinkhorn_divergence_wrapper geom a b args skw static_b kw
  = ([PrepareDivergences geom args static_b kw],
     inr (mkSinkhornDivergence
            (sub zero (mul half (add zero zero)))
            [(None, None); (None, None); (None, None)]
            [None; None; None]
            [None; None; None])).
Proof.
  intros Hprep Hkw. erewrite wrapper_after_prepare by eassumption.
  unfold pad3, apply_sinkhorn_divergence. simpl. now rewrite Hkw.
Qed.

End Facts.

(** *** The theorems at work on the example solver *)

Import Example ExampleMore.

(** Weights of the wrong length for the XY cost matrix. *)
Lemma divergence_raises_only_solver_errors_witness :
  exists g m0 m1 e,
    In (Some g, (m0, m1))
       (combine [Some gxy; Some gxx; Some gyy]
          [(wa, [1%float]); (wa, wa); ([1%float], [1%float])]) /\
    product_cost g m0 m1 kw0 = inl e /\
    Raised InvalidShapeError = Raised e.
Proof.
  exact (@divergence_raises_only_solver_errors solver_world
           (Some gxy) (Some gxx) (Some gyy) wa [1%float] kw0
           (Raised InvalidShapeError) eq_refl).
Defined.

(** The XX cost matrix is three by three: the XY solve returns, the XX
    solve raises, the YY solve is not run. *)
Lemma first_raising_solve_stops_witness :
  sinkhorn_divergence (Some gxy) (Some g3) (Some gyy) wa wb kw0
  = ([Sinkhorn gxy wa wb kw0; Sinkhorn g3 wa wa kw0],
     inl (Raised InvalidShapeError)).
Proof.
  exact (proj1 (proj2 (@first_raising_solve_stops solver_world
                         gxy g3 gyy wa wb kw0 InvalidShapeError))
           _ eq_refl eq_refl).
Defined.

(** The YY term of a full divergence. *)
Lemma term_outputs_are_the_solves_witness :
  exists r o,
    Eff.outcome
      (sinkhorn_divergence (Some gxy) (Some gxx) (Some gyy) wa wb kw0)
    = inr r /\
    product_cost gyy wb wb kw0 = inr o /\
    term_output r 2 = Some ((f o, g o), sinkhorn.errors o) /\
    nth_error (geoms r) 2 = Some (Some gyy).
Proof.
  eexists.
  destruct (@term_outputs_are_the_solves solver_world
              (Some gxy) (Some gxx) (Some gyy) wa wb kw0 _ eq_refl
              2%nat gyy wb wb eq_refl) as (o & Ho).
  exists o. split; [reflexivity|exact Ho].
Defined.

(** No XX geometry: two solver calls. *)
Lemma solver_calls_match_geometries_witness :
  Eff.log (sinkhorn_divergence (Some gxy) None (Some gyy) wa wb kw0)
  = [Sinkhorn gxy wa wb kw0; Sinkhorn gyy wb wb kw0].
Proof.
  exact (@solver_calls_match_geometries solver_world
           (Some gxy) None (Some gyy) wa wb kw0 _ eq_refl).
Defined.

(** Four cost matrices, no [sinkhorn_kwargs]. *)
Lemma wrapper_is_divergence_on_first_three_witness :
  sinkhorn_divergence_wrapper Uncapped wa wb
    [VMatrix cxy; VMatrix cxx; VMatrix cyy; VMatrix cxy] None false []
  = (PrepareDivergences Uncapped
       [VMatrix cxy; VMatrix cxx; VMatrix cyy; VMatrix cxy] false []
       :: Eff.log
            (sinkhorn_divergence
               (Some (mkCostGeometry cxy 0.125))
               (Some (mkCostGeometry cxx 0.125))
               (Some (mkCostGeometry cyy 0.125)) wa wb []),
     Eff.outcome
       (sinkhorn_divergence
          (Some (mkCostGeometry cxy 0.125))
          (Some (mkCostGeometry cxx 0.125))
          (Some (mkCostGeometry cyy 0.125)) wa wb [])).
Proof.
  exact (@wrapper_is_divergence_on_first_three solver_world Uncapped wa wb
           [VMatrix cxy; VMatrix cxx; VMatrix cyy; VMatrix cxy] None false []
           _ eq_refl eq_refl).
Defined.

(** [sinkhorn_kwargs=dict(threshold=..., a=...)]. *)
Lemma wrapper_keyword_clash_witness :
  sinkhorn_divergence_wrapper Capped wa wb [VMatrix cxy; VMatrix cxx]
    (Some [("threshold"%string, VFloat 0.125); ("a"%string, VFloat 1)])
    false []
  = ([PrepareDivergences Capped [VMatrix cxy; VMatrix cxx] false []],
     inl TypeError).
Proof.
  apply (@wrapper_keyword_clash solver_world Capped wa wb
           [VMatrix cxy; VMatrix cxx]
           [("threshold"%string, VFloat 0.125); ("a"%string, VFloat 1)]
           false [] _ "a"%string (VFloat 1) eq_refl).
  - simpl. auto.
  - simpl. auto 6.
Defined.

(** The geometry keyword [epsilon] does not reach the solver. *)
Lemma wrapper_calls_witness :
  Sinkhorn (mkCostGeometry cxx 0.5) wa wa kw0
  = PrepareDivergences Capped [VMatrix cxy; VMatrix cxx] false
      [("epsilon"%string, VFloat 0.5)] \/
  exists g x y,
    Sinkhorn (mkCostGeometry cxx 0.5) wa wa kw0 = Sinkhorn g x y kw0 /\
    In (x, y) [(wa, wb); (wa, wa); (wb, wb)].
Proof.
  apply (@wrapper_calls solver_world Capped wa wb [VMatrix cxy; VMatrix cxx]
           (Some kw0) false [("epsilon"%string, VFloat 0.5)]).
  simpl. auto.
Defined.

(** A clash, seen from the exception, and a solve that raises. *)
Lemma wrapper_exception_origin_witness :
  ((@TypeError pyerror = TypeError /\
    clashes (or_empty (Some [("b"%string, VFloat 1)])) = true /\
    exists gs, geometries_of Capped [VMatrix cxy] false [] = inr gs) \/
   (exists e,
       TypeError = Raised e /\
       (geometries_of Capped [VMatrix cxy] false [] = inl e \/
        exists g m0 m1,
          In (m0, m1) [(wa, wb); (wa, wa); (wb, wb)] /\
          product_cost g m0 m1 (or_empty (Some [("b"%string, VFloat 1)]))
          = inl e))) /\
  ((@Raised pyerror InvalidShapeError = TypeError /\
    clashes (or_empty (Some kw0)) = true /\
    exists gs, geometries_of Capped [VMatrix cxy] false [] = inr gs) \/
   (exists e,
       Raised InvalidShapeError = Raised e /\
       (geometries_of Capped [VMatrix cxy] false [] = inl e \/
        exists g m0 m1,
          In (m0, m1) [(wa, [1%float]); (wa, wa); ([1%float], [1%float])] /\
          product_cost g m0 m1 (or_empty (Some kw0)) = inl e))).
Proof.
  split.
  - exact (@wrapper_exception_origin solver_world Capped wa wb [VMatrix cxy]
             (Some [("b"%string, VFloat 1)]) false [] TypeError eq_refl).
  - exact (@wrapper_exception_origin solver_world Capped wa [1%float]
             [VMatrix cxy] (Some kw0) false []
             (Raised InvalidShapeError) eq_refl).
Defined.

(** No cost matrix at all. *)
Lemma wrapper_no_geometries_witness :
  sinkhorn_divergence_wrapper Uncapped wa wb [] (Some kw0) false []
  = ([PrepareDivergences Uncapped [] false []],
     inr (mkSinkhornDivergence 0%float
            [(None, None); (None, None); (None, None)]
            [None; None; None] [None; None; None])).
Proof.
  exact (@wrapper_no_geometries solver_world Uncapped wa wb [] (Some kw0)
           false [] eq_refl eq_refl).
Defined.

End SinkhornDivergenceMore.

(** ** More on the plotting helpers: the frames of [animate], the
    projection of [bidimensional] *)

Module PlotMore.

Import Plot.

Section Facts.
Context `{C : Collaborators}.

Local Open Scope Z_scope.

(** The low-dimension branch of [bidimensional]. *)
Lemma bidimensional_low_dimension_aux (x y : ndarray) (d : Z) :
  nth_error (shape x) 1 = Some d ->
  d < 3 ->
  bidimensional x y = ([], inr (x, y)).
Proof.
  intros Hd Hlt. unfold bidimensional, Eff.index. rewrite Hd.
  unfold Eff.ret at 1. rewrite EffFacts.bind_value.
  destruct (Z.ltb_spec d 3) as [_|]; [reflexivity|lia].
Qed.

(** Every file opens: the images come in the order of the names. *)
Lemma open_images_all (fns : list string) (ims : list Image) :
  Forall2 (fun fn im => Image_open fn = inr im) fns ims ->
  Eff.mapM open_image fns = (map ImageOpen fns, inr ims).
Proof.
  induction 1 as [|fn im fns ims Hopen _ IH]; [reflexivity|].
  cbn [Eff.mapM map]. unfold open_image at 1, Eff.call. rewrite Hopen.
  simpl Eff.raised. rewrite EffFacts.bind_value, IH.
  cbn. now rewrite app_nil_r.
Qed.

(** A file that does not open ends the comprehension. *)
Lemma open_images_failure (pre post : list string) (ims : list Image) fn e :
  Forall2 (fun fn im => Image_open fn = inr im) pre ims ->
  Image_open fn = inl e ->
  Eff.mapM open_image (pre ++ fn :: post)
  = (map ImageOpen (pre ++ [fn]), inl (Raised e)).
Proof.
  intros Hpre Hfn. induction Hpre as [|fn' im pre ims Hopen _ IH].
  - cbn [app Eff.mapM map]. unfold open_image at 1, Eff.call.
    now rewrite Hfn.
  - cbn [app Eff.mapM map]. unfold open_image at 1, Eff.call.
    rewrite Hopen. simpl Eff.raised. rewrite EffFacts.bind_value, IH.
    reflexivity.
Qed.

(** X9. With PIL, when every file opens, [animate] opens the files in the
    order given, all of them before it saves; it saves once, the first
    image with the others appended in order, under the name [gif_fn], with
    the duration given and [loop=0]; what the save raises or returns is
    what [animate] raises or returns. *)
Theorem animate_opens_then_saves
    image_fns gif_fn duration loop (first : Image) (rest : list Image) :
  PIL_is_importable = true ->
  Forall2 (fun fn im => Image_open fn = inr im) image_fns (first :: rest) ->
  animate image_fns gif_fn duration loop
  = (map ImageOpen image_fns
       ++ [ImageSave first gif_fn true rest duration 0],
     Eff.raised (Image_save first gif_fn true rest duration 0)).
Proof.
  intros Hpil Hopen. unfold animate. rewrite Hpil. cbn [negb].
  erewrite open_images_all by eassumption. rewrite EffFacts.bind_value.
  reflexivity.
Qed.

(** X10. With PIL, a file that cannot be opened ends [animate] with the
    exception of [Image.open]: the files after it are not opened, and
    nothing is saved. *)
Theorem animate_open_failure
    (pre post : list string) (ims : list Image) fn e gif_fn duration loop :
  PIL_is_importable = true ->
  Forall2 (fun fn im => Image_open fn = inr im) pre ims ->
  Image_open fn = inl e ->
  animate (pre ++ fn :: post) gif_fn duration loop
  = (map ImageOpen (pre ++ [fn]), inl (Raised e)).
Proof.
  intros Hpil Hpre Hfn. unfold animate. rewrite Hpil. cbn [negb].
  now erewrite open_images_failure by eassumption.
Qed.

(** X11. With PIL and no file name at all, [animate] raises [IndexError]
    (there is no first image) and nothing is opened or saved. *)
Theorem animate_no_frames gif_fn duration loop :
  PIL_is_importable = true ->
  animate [] gif_fn duration loop = ([], inl IndexError).
Proof. intros Hpil. unfold animate. rewrite Hpil. reflexivity. Qed.

(** How [bidimensional] goes on when [x] has three columns or more. *)
Lemma bidimensional_high_dimension (x y : ndarray) (d : Z) :
  nth_error (shape x) 1 = Some d ->
  3 <= d ->
  bidimensional x y
  = Eff.bind (Eff.lift (Eff.raised (concatenate [x; y] 0)))
      (fun xy =>
       Eff.bind (Eff.call (Svds xy 2) (Eff.raised (svds xy 2)))
         (fun usv =>
          let '(u, s, _) := usv in
          Eff.bind (Eff.lift (Eff.raised (multiply u s))) (fun proj =>
          Eff.bind (Eff.index (shape x) 0) (fun k =>
          Eff.ret (slice_to proj k, slice_from proj k))))).
Proof.
  intros Hd Hge. unfold bidimensional.
  unfold Eff.index at 1. rewrite Hd. unfold Eff.ret at 1.
  rewrite EffFacts.bind_value.
  destruct (Z.ltb_spec d 3) as [|_]; [lia|].
  cbn [fst snd app]. now destruct (Eff.bind _ _).
Qed.

(** An array with a second axis has a first one. *)
Lemma shape_first_axis (x : ndarray) (d : Z) :
  nth_error (shape x) 1 = Some d -> exists k, nth_error (shape x) 0 = Some k.
Proof.
  destruct (shape x) as [|k t]; [discriminate|]. now exists k.
Qed.

(** The ways [bidimensional] can go. *)
Lemma bidimensional_cases (x y : ndarray) :
  (nth_error (shape x) 1 = None /\
   bidimensional x y = ([], inl IndexError)) \/
  (exists d,
      nth_error (shape x) 1 = Some d /\ d < 3 /\
      bidimensional x y = ([], inr (x, y))) \/
  (exists d e,
      nth_error (shape x) 1 = Some d /\ 3 <= d /\
      concatenate [x; y] 0 = inl e /\
      bidimensional x y = ([], inl (Raised e))) \/
  (exists d xy k,
      nth_error (shape x) 1 = Some d /\ 3 <= d /\
      concatenate [x; y] 0 = inr xy /\
      nth_error (shape x) 0 = Some k /\
      bidimensional x y
      = ([Svds xy 2],
         match svds xy 2 with
         | inl e => inl (Raised e)
         | inr (u, s, _) =>
             match multiply u s with
             | inl e => inl (Raised e)
             | inr proj => inr (slice_to proj k, slice_from proj k)
             end
         end)).
Proof.
  destruct (nth_error (shape x) 1) as [d|] eqn:Hd.
  2:{ left. split; [reflexivity|].
      unfold bidimensional, Eff.index. now rewrite Hd. }
  right. destruct (Z.lt_ge_cases d 3) as [Hlt|Hge].
  { left. exists d. repeat split; [assumption|].
    now apply bidimensional_low_dimension_aux with d. }
  right. destruct (shape_first_axis _ Hd) as [k Hk].
  destruct (concatenate [x; y] 0) as [e|xy] eqn:Hcat.
  { left. exists d, e. repeat split; [assumption|].
    erewrite bidimensional_high_dimension by eassumption.
    now rewrite Hcat. }
  right. exists d, xy, k. repeat split; [assumption|assumption|].
  erewrite bidimensional_high_dimension by eassumption.
  unfold Eff.index, Eff.lift, Eff.call. rewrite Hcat, Hk.
  simpl Eff.raised. rewrite EffFacts.bind_value.
  destruct (svds xy 2) as [e|[[u s] vt]]; [reflexivity|].
  simpl Eff.raised. rewrite EffFacts.bind_value.
  now destruct (multiply u s).
Qed.

(** X12. [bidimensional] calls the SVD at most once, only when [x] has
    three columns or more, on [x] and [y] stacked, and for two singular
    values. *)
Theorem bidimensional_svd_calls (x y : ndarray) :
  (List.length (Eff.log (bidimensional x y)) <= 1)%nat /\
  forall ev,
    In ev (Eff.log (bidimensional x y)) ->
    exists d xy,
      nth_error (shape x) 1 = Some d /\ 3 <= d /\
      concatenate [x; y] 0 = inr xy /\
      ev = Svds xy 2.
Proof.
  destruct (bidimensional_cases x y)
    as [(_ & E)|[(d & _ & _ & E)|[(d & e & _ & _ & _ & E)
       |(d & xy & k & Hd & Hge & Hcat & _ & E)]]];
    rewrite E; simpl; (split; [lia|]);
    try (intros ev H; contradiction).
  intros ev [<-|[]]. now exists d, xy.
Qed.

(** X13. When [x] has three columns or more and the stacking, the SVD and
    the product [u * s] go through, the two results are the rows of that
    one product before and from row [x.shape[0]]: the split is at the
    number of points of [x], whatever the number of points of [y]. *)
Theorem bidimensional_projects (x y xy u s vt proj : ndarray) (k d : Z) :
  shape x = k :: d :: nil ->
  3 <= d ->
  concatenate [x; y] 0 = inr xy ->
  svds xy 2 = inr (u, s, vt) ->
  multiply u s = inr proj ->
  bidimensional x y
  = ([Svds xy 2], inr (slice_to proj k, slice_from proj k)).
Proof.
  intros Hshape Hge Hcat Hsvd Hmul.
  erewrite bidimensional_high_dimension;
    [|rewrite Hshape; reflexivity|eassumption].
  unfold Eff.index, Eff.lift, Eff.call.
  rewrite Hcat, Hshape. simpl Eff.raised. rewrite EffFacts.bind_value.
  rewrite Hsvd. simpl Eff.raised. rewrite EffFacts.bind_value.
  rewrite Hmul. reflexivity.
Qed.

(** X14. Where the exceptions of [bidimensional] come from.  The one
    exception of its own making is the [IndexError] of the subscript
    [x.shape[1]], raised exactly when [x] has fewer than two axes, before
    anything else is done; the later subscript [x.shape[0]] never raises.
    Any other exception is the one [jnp.concatenate], [svds] or the
    product [u * s] raised, of whatever class, passed on as it is. *)
Theorem bidimensional_exception_origin (x y : ndarray) :
  (nth_error (shape x) 1 = None ->
   bidimensional x y = ([], inl IndexError)) /\
  forall ex,
    Eff.outcome (bidimensional x y) = inl ex ->
    (ex = IndexError /\ nth_error (shape x) 1 = None) \/
    exists e,
      ex = Raised e /\
      (concatenate [x; y] 0 = inl e \/
       exists xy,
         concatenate [x; y] 0 = inr xy /\
         (svds xy 2 = inl e \/
          exists u s vt,
            svds xy 2 = inr (u, s, vt) /\ multiply u s = inl e)).
Proof.
  destruct (bidimensional_cases x y)
    as [(Hd & E)|[(d & Hd & _ & E)|[(d & e & Hd & _ & Hcat & E)
       |(d & xy & k & Hd & _ & Hcat & _ & E)]]];
    rewrite E; (split; [intros Hnone; congruence|]);
    intros ex H; simpl in H.
  - injection H as <-. left. now split.
  - discriminate.
  - injection H as <-. right. exists e. split; [reflexivity|now left].
  - right. destruct (svds xy 2) as [e|[[u s] vt]] eqn:Hsvd.
    + injection H as <-. exists e. split; [reflexivity|]. right.
      exists xy. split; [assumption|now left].
    + destruct (multiply u s) as [e|proj] eqn:Hmul; [|discriminate].
      injection H as <-. exists e. split; [reflexivity|]. right.
      exists xy. split; [assumption|]. right. now exists u, s, vt.
Qed.

End Facts.

(** *** The theorems at work on the example files and arrays *)

Import Example ExampleMore.

Lemma animate_opens_then_saves_witness :
  @animate (plot_world true) ["a.png"; "b.png"; "c.png"]%string "out.gif" 100 3
  = ([ImageOpen "a.png"; ImageOpen "b.png"; ImageOpen "c.png";
      ImageSave (H := plot_world true)
        "frame-a"%string "out.gif" true ["frame-b"; "frame-c"]%string 100 0],
     inr tt).
Proof.
  apply (@animate_opens_then_saves (plot_world true)
           ["a.png"; "b.png"; "c.png"]%string "out.gif"%string 100%Z 3%Z
           "frame-a"%string ["frame-b"; "frame-c"]%string eq_refl).
  repeat constructor.
Defined.

Lemma animate_open_failure_witness :
  @animate (plot_world true) ["a.png"; "z.png"; "b.png"]%string "out.gif" 100 0
  = ([ImageOpen "a.png"; ImageOpen "z.png"], inl (Raised OtherError)).
Proof.
  apply (@animate_open_failure (plot_world true)
           ["a.png"]%string ["b.png"]%string ["frame-a"]%string
           "z.png"%string OtherError "out.gif"%string 100%Z 0%Z eq_refl).
  - repeat constructor.
  - reflexivity.
Defined.

Lemma animate_no_frames_witness :
  @animate (plot_world true) [] "out.gif" 250 0 = ([], inl IndexError).
Proof.
  exact (@animate_no_frames (plot_world true) "out.gif"%string 250%Z 0%Z
           eq_refl).
Defined.

(** Two points and one point in three dimensions: the first result has
    two rows, the second one. *)
Lemma bidimensional_projects_witness :
  @bidimensional array_world x3 y3
  = ([Svds (H := array_world)
        (mkArray [3; 3]%Z [1; 2; 3; 4; 5; 6; 7; 8; 9]%float) 2],
     inr (mkArray [2; 2]%Z [1; 2; 4; 5]%float,
          mkArray [1; 2]%Z [7; 8]%float)).
Proof.
  exact (@bidimensional_projects array_world x3 y3 _ _ _ _ _ 2%Z 3%Z
           eq_refl (Z.le_refl 3) eq_refl eq_refl eq_refl).
Defined.

(** A vector in place of the matrix [x]; and a [y] with two columns
    against three, which the stacking refuses. *)
Lemma bidimensional_exception_origin_witness :
  @bidimensional array_world v1 y3 = ([], inl IndexError) /\
  ((@Raised pyerror InvalidShapeError = IndexError /\
    nth_error (array_shape x3) 1 = None) \/
   exists e,
     Raised InvalidShapeError = Raised e /\
     (stack [x3; x2] 0 = inl e \/
      exists xy,
        stack [x3; x2] 0 = inr xy /\
        (first_columns xy 2 = inl e \/
         exists u s vt,
           first_columns xy 2 = inr (u, s, vt) /\
           scale_columns u s = inl e))).
Proof.
  split.
  - exact (proj1 (@bidimensional_exception_origin array_world v1 y3)
             eq_refl).
  - exact (proj2 (@bidimensional_exception_origin array_world x3 x2)
             (Raised InvalidShapeError) eq_refl).
Defined.

(** Without PIL and with warnings made errors, [animate] raises. *)
Example animate_strict_warning :
  @animate strict_world ["a.png"]%string "out.gif" 250 0
  = ([Warn (H := strict_world)
        "Pillow was not imported successfully. Doing nothing instead."
        RuntimeWarning],
     inl (Raised OtherError)).
Proof. reflexivity. Qed.

End PlotMore.

(** ** [show_gif] *)

Module NotebookFacts.

Import Notebook.

Section Facts.
Context `{C : Collaborators}.

Local Open Scope string_scope.

(** X15. When IPython could not be imported, [show_gif] does not warn and
    return as [animate] does without PIL: the name [warnings.run] at line
    157 does not exist, so the call raises [AttributeError]; the file is
    not read. *)
Theorem show_gif_without_ipython (gif_fn : string) :
  IPython_is_importable = false ->
  show_gif gif_fn = ([], inl (AttributeError "warnings" "run")).
Proof. intros H. unfold show_gif. rewrite H. reflexivity. Qed.

(** X16. With IPython, [show_gif] reads the file once and returns the
    HTML of an [img] element whose source is the data URI
    [data:image/gif;base64,...] of the file's bytes, between double
    quotes. *)
Theorem show_gif_embeds_file
    (gif_fn : string) (data : list Byte.byte) (text : string) :
  IPython_is_importable = true ->
  read_binary gif_fn = inr data ->
  decode_ascii (b64encode data) = inr text ->
  show_gif gif_fn
  = ([ReadFile gif_fn],
     inr (Some (display_HTML
                  ("<img src=" ++ quote ++ "data:image/gif;base64,"
                     ++ text ++ quote ++ " />")))).
Proof.
  intros Hip Hread Hdec. unfold show_gif, Eff.call, Eff.lift.
  rewrite Hip, Hread. simpl collaborator.
  rewrite EffFacts.bind_value, Hdec. reflexivity.
Qed.

(** X17. A file that cannot be read ends [show_gif] with the exception of
    [open]; without IPython the file is not even tried.  So the log holds
    [ReadFile gif_fn] exactly when IPython was imported. *)
Theorem show_gif_reads_with_ipython_only (gif_fn : string) :
  Eff.log (show_gif gif_fn)
  = if IPython_is_importable then [ReadFile gif_fn] else [].
Proof.
  unfold show_gif, Eff.call, Eff.lift.
  destruct IPython_is_importable; [|reflexivity]. cbn [negb].
  destruct (read_binary gif_fn) as [e|data]; [reflexivity|].
  simpl collaborator. rewrite EffFacts.bind_value.
  now destruct (decode_ascii (b64encode data)).
Qed.

End Facts.

Import Example ExampleMore.

Lemma show_gif_without_ipython_witness :
  @show_gif (notebook_world false) "a.png"
  = ([], inl (AttributeError "warnings" "run")).
Proof.
  exact (@show_gif_without_ipython (notebook_world false) "a.png"%string
           eq_refl).
Defined.

Lemma show_gif_embeds_file_witness :
  @show_gif (notebook_world true) "a.png"
  = ([ReadFile "a.png"],
     inr (Some
            ("<img src=" ++ quote ++ "data:image/gif;base64,b64:frame-a"
               ++ quote ++ " />")%string)).
Proof.
  exact (@show_gif_embeds_file (notebook_world true) "a.png"%string _ _
           eq_refl eq_refl eq_refl).
Defined.

End NotebookFacts.

(** ** The self-divergence in floating point *)

Module FloatFacts.

Import sinkhorn SinkhornDivergence BinaryFloat.
Import SinkhornDivergenceFacts.

Section Format.
Variables prec emax : Z.
Hypothesis Hprec : (1 < prec)%Z.

Local Open Scope Z_scope.

(** *** Doubling, halving and subtracting in the format *)

Lemma mul_iter_xO (k p : positive) :
  Pos.mul (Pos.iter xO xH k) p = Pos.iter xO p k.
Proof.
  revert p. induction k using Pos.peano_ind; intros p.
  - reflexivity.
  - rewrite !Pos.iter_succ. simpl. now rewrite IHk.
Qed.

Lemma digits_iter_xO (k p : positive) :
  Zpos (digits2_pos (Pos.iter xO p k)) = Zpos (digits2_pos p) + Zpos k.
Proof.
  induction k using Pos.peano_ind.
  - simpl. lia.
  - rewrite Pos.iter_succ. simpl digits2_pos. lia.
Qed.

Lemma iter_pos_peano {A : Type} (f : A -> A) (k : positive) (x : A) :
  iter_pos f k x = Pos.iter f x k.
Proof.
  revert x. induction k as [k IH|k IH|]; intros x; simpl.
  - rewrite !IH. f_equal. clear IH. revert x.
    assert (H : forall n y, Pos.iter f (f y) n = f (Pos.iter f y n)).
    { intros n. induction n using Pos.peano_ind; intros y.
      - reflexivity.
      - rewrite !Pos.iter_succ. now rewrite IHn. }
    intros x. now rewrite !H.
  - now rewrite !IH.
  - reflexivity.
Qed.

Lemma shr_iter_xO (k p : positive) :
  iter_pos shr_1 k (Build_shr_record (Zpos (Pos.iter xO p k)) false false)
  = Build_shr_record (Zpos p) false false.
Proof.
  rewrite iter_pos_peano. induction k using Pos.peano_ind.
  - reflexivity.
  - rewrite Pos.iter_succ_r. rewrite Pos.iter_succ. simpl. exact IHk.
Qed.


Lemma shl_align_ge (q : positive) (ee t : Z) :
  ee <= t -> shl_align q ee t = (q, ee).
Proof.
  intros H. unfold shl_align. destruct (t - ee) eqn:E; try reflexivity. lia.
Qed.

(** Rounding a mantissa that is already canonical changes nothing. *)
Lemma round_canonical (s : bool) (q : positive) (ee : Z) :
  fexp prec emax (Zpos (digits2_pos q) + ee) = ee ->
  binary_round_aux prec emax s (Zpos q) ee loc_Exact
  = if ee <=? emax - prec then S754_finite s q ee else S754_infinity s.
Proof.
  intros H. unfold binary_round_aux, shr_fexp. cbn [Zdigits2].
  rewrite H, Z.sub_diag.
  cbn [shr shr_record_of_loc shr_m loc_of_shr_record round_nearest_even
       Zdigits2].
  rewrite H, Z.sub_diag. reflexivity.
Qed.

(** Rounding a mantissa with [k] trailing zeros that is canonical once
    they are shifted out is exact. *)
Lemma round_shifted (s : bool) (p k : positive) (ee : Z) :
  fexp prec emax (Zpos (digits2_pos p) + Zpos k + ee) = ee + Zpos k ->
  binary_round_aux prec emax s (Zpos (Pos.iter xO p k)) ee loc_Exact
  = if ee + Zpos k <=? emax - prec
    then S754_finite s p (ee + Zpos k) else S754_infinity s.
Proof.
  intros H. unfold binary_round_aux, shr_fexp. cbn [Zdigits2].
  rewrite digits_iter_xO, H.
  replace (ee + Zpos k - ee) with (Zpos k) by lia.
  cbn [shr shr_record_of_loc]. rewrite shr_iter_xO.
  cbn [shr_m loc_of_shr_record round_nearest_even Zdigits2].
  replace (Zpos (digits2_pos p) + (ee + Zpos k))
    with (Zpos (digits2_pos p) + Zpos k + ee) by lia.
  rewrite H, Z.sub_diag. reflexivity.
Qed.

Lemma canonical_cases (m : positive) (e : Z) :
  canonical_mantissa prec emax m e = true ->
  (Zpos (digits2_pos m) = prec /\ emin prec emax <= e) \/
  (Zpos (digits2_pos m) < prec /\ e = emin prec emax).
Proof.
  unfold canonical_mantissa, fexp, emin. intros H. apply Z.eqb_eq in H. lia.
Qed.

(** The double of a well-formed finite number. *)
Lemma SFadd_self (s : bool) (m : positive) (e : Z) :
  bounded prec emax m e = true ->
  SFadd prec emax (S754_finite s m e) (S754_finite s m e)
  = if Zpos (digits2_pos m) =? prec
    then (if e + 1 <=? emax - prec
          then S754_finite s m (e + 1) else S754_infinity s)
    else S754_finite s (m~0) e.
Proof.
  unfold bounded. intros H. apply andb_prop in H. destruct H as [Hc Hb].
  apply Z.leb_le in Hb.
  unfold SFadd. rewrite Z.min_id.
  rewrite shl_align_ge by lia. cbn [fst].
  assert (Hsum : cond_Zopp s (Zpos m) + cond_Zopp s (Zpos m)
                 = cond_Zopp s (Zpos m~0)).
  { destruct s; simpl; now rewrite Pos.add_diag. }
  rewrite Hsum.
  assert (Hnorm : binary_normalize prec emax (cond_Zopp s (Zpos m~0)) e false
                  = binary_round prec emax s (m~0) e).
  { now destruct s. }
  rewrite Hnorm. unfold binary_round.
  pose proof (canonical_cases _ _ Hc) as Hcase.
  assert (Hd : Zpos (digits2_pos m~0) = Zpos (digits2_pos m) + 1).
  { simpl. lia. }
  destruct Hcase as [[HD He]|[HD He]].
  - rewrite (proj2 (Z.eqb_eq _ _) HD).
    assert (Hf : fexp prec emax (Zpos (digits2_pos m~0) + e) = e + 1).
    { rewrite Hd. unfold fexp, emin in *. lia. }
    rewrite Hf, shl_align_ge by lia.
    change (m~0)%positive with (Pos.iter xO m 1).
    apply round_shifted. rewrite <- Hf, Hd. reflexivity.
  - destruct (Z.eqb_spec (Zpos (digits2_pos m)) prec) as [|_]; [lia|].
    assert (Hf : fexp prec emax (Zpos (digits2_pos m~0) + e) = e).
    { rewrite Hd. unfold fexp, emin in *. lia. }
    rewrite Hf, shl_align_ge by lia.
    rewrite round_canonical by exact Hf.
    now rewrite (proj2 (Z.leb_le _ _) Hb).
Qed.

(** Halving the double gives the number back. *)
Lemma SFmul_half_double (s : bool) (m : positive) (e : Z) :
  bounded prec emax m e = true ->
  sf_finite (SFadd prec emax (S754_finite s m e) (S754_finite s m e)) = true ->
  SFmul prec emax (sf_half prec)
    (SFadd prec emax (S754_finite s m e) (S754_finite s m e))
  = S754_finite s m e.
Proof.
  intros Hbd. rewrite SFadd_self by assumption.
  unfold bounded in Hbd. apply andb_prop in Hbd. destruct Hbd as [Hc Hb].
  pose proof Hb as Hb'. apply Z.leb_le in Hb.
  pose proof Hc as Hc'. unfold canonical_mantissa in Hc'.
  apply Z.eqb_eq in Hc'.
  destruct (canonical_cases _ _ Hc) as [[HD He]|[HD He]].
  - rewrite (proj2 (Z.eqb_eq _ _) HD).
    destruct (Z.leb_spec (e + 1) (emax - prec)); [intros _|discriminate].
    unfold SFmul, sf_half. cbn [xorb]. rewrite mul_iter_xO.
    rewrite round_shifted.
    + replace (- prec + (e + 1) + Zpos (Z.to_pos (prec - 1))) with e by lia.
      now rewrite Hb'.
    + rewrite HD. unfold fexp, emin in *. lia.
  - destruct (Z.eqb_spec (Zpos (digits2_pos m)) prec) as [|_]; [lia|].
    intros _. unfold SFmul, sf_half. cbn [xorb]. rewrite mul_iter_xO.
    assert (Hshift : Pos.iter xO (m~0)%positive (Z.to_pos (prec - 1))
                     = Pos.iter xO m (Z.to_pos prec)).
    { replace (Z.to_pos prec) with (Pos.succ (Z.to_pos (prec - 1))) by lia.
      now rewrite Pos.iter_succ_r. }
    rewrite Hshift, round_shifted.
    + replace (- prec + e + Zpos (Z.to_pos prec)) with e by lia.
      now rewrite Hb'.
    + replace (Zpos (digits2_pos m) + Zpos (Z.to_pos prec) + (- prec + e))
        with (Zpos (digits2_pos m) + e) by lia.
      rewrite Hc'. lia.
Qed.

(** [c - 0.5 * (c + c)] for a well-formed [c]: zero when [c] and its
    double are finite. *)
Lemma debias_self_zero (c : spec_float) :
  valid_binary prec emax c = true ->
  sf_finite c = true ->
  sf_finite (SFadd prec emax c c) = true ->
  SFsub prec emax c (SFmul prec emax (sf_half prec) (SFadd prec emax c c))
  = S754_zero false.
Proof.
  destruct c as [s|s| |s m e]; try discriminate.
  - intros _ _ _. now destruct s.
  - intros Hv _ Hfin. simpl in Hv.
    rewrite SFmul_half_double by assumption.
    unfold SFsub. rewrite Z.min_id, shl_align_ge by lia.
    cbn [fst]. now rewrite Z.sub_diag.
Qed.

(** Otherwise it is infinite or not a number. *)
Lemma debias_self_not_finite (c : spec_float) :
  sf_finite c && sf_finite (SFadd prec emax c c) = false ->
  sf_finite
    (SFsub prec emax c (SFmul prec emax (sf_half prec) (SFadd prec emax c c)))
  = false.
Proof.
  destruct c as [s|s| |s m e].
  - now destruct s.
  - now destruct s.
  - reflexivity.
  - cbn [sf_finite andb].
    destruct (SFadd prec emax (S754_finite s m e) (S754_finite s m e))
      as [s'|s'| |s' m' e']; try discriminate; reflexivity.
Qed.

(** *** The divergence of a distribution against itself *)

Section Solver.
Context {Geometry GeometryClass ndarray value error : Type}.
Variable solver :
  Geometry -> ndarray -> ndarray -> kwargs value ->
  error + SinkhornOutput ndarray spec_float.
Variable prepare :
  GeometryClass -> list value -> bool -> kwargs value ->
  error + list (option Geometry).

(** C5, amended. With one geometry for XY, XX and YY and [b = a], the
    three solves are one solve, of cost [c]; in a binary floating-point
    format the divergence [c - 0.5 * (c + c)] is exactly 0 when [c] is a
    finite number of the format whose double does not overflow, and it is
    infinite or NaN, not 0, when [c] is infinite or NaN or its double
    overflows. *)
Theorem self_divergence_zero_unless_overflow
    (geom : Geometry) (a : ndarray) (kw : kwargs value)
    (o : SinkhornOutput ndarray spec_float) :
  solver geom a a kw = inr o ->
  exists r,
    Eff.outcome
      (@sinkhorn_divergence (float_world prec emax solver prepare)
         (Some geom) (Some geom) (Some geom) a a kw)
    = inr r /\
    (valid_binary prec emax (reg_ot_cost o) = true ->
     sf_finite (reg_ot_cost o) = true ->
     sf_finite (SFadd prec emax (reg_ot_cost o) (reg_ot_cost o)) = true ->
     divergence r = S754_zero false) /\
    (sf_finite (reg_ot_cost o)
     && sf_finite (SFadd prec emax (reg_ot_cost o) (reg_ot_cost o)) = false ->
     sf_finite (divergence r) = false).
Proof.
  intros Hs.
  exists (@assemble (float_world prec emax solver prepare)
            [Some geom; Some geom; Some geom] o o o).
  split; [|split].
  - erewrite (@sinkhorn_divergence_present
                (float_world prec emax solver prepare)) by exact Hs.
    reflexivity.
  - intros Hv Hf Hd. now apply debias_self_zero.
  - intros Hn. now apply debias_self_not_finite.
Qed.

End Solver.
End Format.

(** *** On the example solver *)

Import Example ExampleFormat.

(** In binary32, a cost of 3: the divergence is 0. *)
Lemma self_divergence_zero_unless_overflow_witness :
  exists r,
    Eff.outcome
      (@sinkhorn_divergence binary32_world
         (Some self3) (Some self3) (Some self3) [one32] [one32] [])
    = inr r /\
    divergence r = S754_zero false.
Proof.
  destruct (@self_divergence_zero_unless_overflow 24 128 eq_refl
              _ _ _ _ _
              (independent_cost (H := sf_ops 24 128))
              (fun (_ : unit) (_ : list spec_float) (_ : bool)
                   (_ : kwargs spec_float) =>
                 inr [] : pyerror + list (option (list (list spec_float))))
              self3 [one32] [] _ eq_refl)
    as (r & Hr & Hzero & _).
  exists r. split; [exact Hr|]. exact (Hzero eq_refl eq_refl eq_refl).
Defined.

(** In binary32, a cost of [2^127], a finite number: its double
    overflows, and the divergence is minus infinity, further from 0 than
    any tolerance. *)
Lemma self_divergence_overflow :
  exists r,
    Eff.outcome
      (@sinkhorn_divergence binary32_world
         (Some self_huge) (Some self_huge) (Some self_huge)
         [one32] [one32] [])
    = inr r /\
    divergence r = S754_infinity true /\
    forall tol,
      sf_finite tol = true ->
      SFleb (SFabs (divergence r)) tol = false.
Proof.
  eexists. split; [reflexivity|]. split; [reflexivity|].
  intros [s|s| |s m e] H; try discriminate; reflexivity.
Qed.

(** The same on the machine's binary64 floats, at cost [2^1023]. *)
Example self_divergence_overflow_binary64 :
  exists r,
    Eff.outcome
      (@sinkhorn_divergence solver_world
         (Some self_huge64) (Some self_huge64) (Some self_huge64)
         [1%float] [1%float] kw0)
    = inr r /\
    divergence r = neg_infinity.
Proof. eexists. split; reflexivity. Qed.

(** The format operations at [prec = 53], [emax = 1024] are those of the
    machine's floats: [0.5] is [sf_half 53], and [2^1023 - 0.5 * (2^1023 +
    2^1023)] is computed alike. *)
Example half_is_sf_half : FloatOps.Prim2SF 0.5 = sf_half 53.
Proof. reflexivity. Qed.

Example overflow_alike :
  FloatOps.Prim2SF (0x1p1023 - 0.5 * (0x1p1023 + 0x1p1023))%float
  = SFsub 53 1024 (FloatOps.Prim2SF 0x1p1023)
      (SFmul 53 1024 (sf_half 53)
         (SFadd 53 1024 (FloatOps.Prim2SF 0x1p1023)
            (FloatOps.Prim2SF 0x1p1023))).
Proof. reflexivity. Qed.

End FloatFacts.
